(** * HDB Insights: synchronization pipeline and scoring engine

    A shallow embedding of the TypeScript sources of the repository:
    - [lib/scoring.ts]    the five sub-scores, the weighted composite, the
                          labels and the colours;
    - [lib/onemap.ts]     the amenity count of the enrichment client, in the
                          two variants present in the repository;
    - [lib/db.ts]         the extraction of the lease years, the price per
                          square metre and the moving average;
    - [lib/cache.ts]      the cache keys;
    - [pages/api/cron.ts] the sync trigger: authorization, watermark,
                          page-fetch loop, batched idempotent inserts,
                          statistics recomputation, enrichment, sync state;
    - [pages/api/enrich.ts] the enrichment trigger;
    - [pages/api/sync-status.ts] the status read;
    - [pages/api/comparison.ts] the cache key, the per-month median query
                          and the trends;
    - [schema.sql]        the tables and their uniqueness constraints.

    Modelling choices.
    - A JavaScript number is a [JS.number]: an exact rational or one of the
      three special values of IEEE-754 arithmetic.  Binary rounding, overflow
      and the sign of zero are not modelled; comparisons with NaN, division
      by zero and [Math.round] follow ECMAScript.
    - Strings are byte strings, compared byte by byte, as JavaScript and
      SQLite both compare ASCII text.
    - The upstream feed, the enrichment provider and the clock are
      parameters: a function from the page offset to the answer of the
      request, a record of answers, a record of readings.
    - The database is a record of four tables, each a list of rows.  Every
      statement is taken to succeed; the statements executed are collected in
      a trace.  A NaN bound to a statement is stored as NULL.
    - The [while] loop of the handler runs on fuel; it is proved never to
      run out. *)

From Stdlib Require Import String Ascii DecimalString DecimalPos OrdersEx ZArith QArith Qround Lia Lqa Bool List Sorted.
Import ListNotations.

Set Implicit Arguments.

(* ================================================================== *)
(** * JavaScript numbers *)
(* ================================================================== *)

Module JS.

Inductive number : Type :=
| Fin (q : Q)
| PosInf
| NegInf
| NaN.

Definition of_Z (z : Z) : number := Fin (inject_Z z).

Definition is_finite (x : number) : bool :=
  match x with Fin _ => true | _ => false end.

(** Sign of a rational, used by multiplication and division. *)
Definition Qsgn (q : Q) : comparison := Qcompare q 0.

Definition neg (x : number) : number :=
  match x with
  | Fin q => Fin (- q)
  | PosInf => NegInf
  | NegInf => PosInf
  | NaN => NaN
  end.

Definition add (x y : number) : number :=
  match x, y with
  | NaN, _ | _, NaN => NaN
  | Fin a, Fin b => Fin (a + b)
  | PosInf, NegInf | NegInf, PosInf => NaN
  | PosInf, _ | _, PosInf => PosInf
  | NegInf, _ | _, NegInf => NegInf
  end.

Definition sub (x y : number) : number := add x (neg y).

(** An infinity scaled by the sign [s] of the other factor. *)
Definition scale_inf (positive : bool) (s : comparison) : number :=
  match s with
  | Eq => NaN
  | Gt => if positive then PosInf else NegInf
  | Lt => if positive then NegInf else PosInf
  end.

Definition mul (x y : number) : number :=
  match x, y with
  | NaN, _ | _, NaN => NaN
  | Fin a, Fin b => Fin (a * b)
  | Fin a, PosInf | PosInf, Fin a => scale_inf true (Qsgn a)
  | Fin a, NegInf | NegInf, Fin a => scale_inf false (Qsgn a)
  | PosInf, PosInf | NegInf, NegInf => PosInf
  | PosInf, NegInf | NegInf, PosInf => NegInf
  end.

(** [x / y].  A finite value divided by zero is an infinity of the sign of
    the dividend, and [0 / 0] is NaN. *)
Definition div (x y : number) : number :=
  match x, y with
  | NaN, _ | _, NaN => NaN
  | Fin a, Fin b =>
      if Qeq_bool b 0
      then match Qsgn a with Eq => NaN | Gt => PosInf | Lt => NegInf end
      else Fin (a / b)
  | Fin _, PosInf | Fin _, NegInf => Fin 0
  | PosInf, Fin b => if Qle_bool 0 b then PosInf else NegInf
  | NegInf, Fin b => if Qle_bool 0 b then NegInf else PosInf
  | _, _ => NaN
  end.

(** [x <= y]; every comparison with NaN is false. *)
Definition le (x y : number) : bool :=
  match x, y with
  | NaN, _ | _, NaN => false
  | Fin a, Fin b => Qle_bool a b
  | NegInf, _ => true
  | _, PosInf => true
  | _, _ => false
  end.

(** [x < y]. *)
Definition lt (x y : number) : bool :=
  match x, y with
  | NaN, _ | _, NaN => false
  | Fin a, Fin b => negb (Qle_bool b a)
  | PosInf, _ => false
  | _, NegInf => false
  | _, _ => true
  end.

Definition ge (x y : number) : bool := le y x.
Definition gt (x y : number) : bool := lt y x.

(** [Math.round]: the nearest integer, ties towards +infinity. *)
Definition Math_round (x : number) : number :=
  match x with
  | Fin q => of_Z (Qfloor (q + 0.5))
  | other => other
  end.

(** [Math.min] of two arguments. *)
Definition Math_min (x y : number) : number :=
  match x, y with
  | NaN, _ | _, NaN => NaN
  | _, _ => if le x y then x else y
  end.


End JS.

Declare Scope js_scope.
Delimit Scope js_scope with js.
Bind Scope js_scope with JS.number.
Notation "x + y" := (JS.add x y) : js_scope.
Notation "x - y" := (JS.sub x y) : js_scope.
Notation "x * y" := (JS.mul x y) : js_scope.
Notation "x / y" := (JS.div x y) : js_scope.
Notation "x <=? y" := (JS.le x y) : js_scope.
Notation "x <? y" := (JS.lt x y) : js_scope.
Notation "x >=? y" := (JS.ge x y) (at level 70) : js_scope.
Notation "x >? y" := (JS.gt x y) (at level 70) : js_scope.
Notation "# q" := (JS.Fin q%Q) (at level 5, q at level 0, format "# q") : js_scope.

(* ================================================================== *)
(** * lib/scoring.ts *)
(* ================================================================== *)

Module Scoring.
Import JS.
Local Open Scope js_scope.

Record ScoreWeights : Type := mkWeights {
  w_price : number;
  w_location : number;
  w_lease : number;
  w_appreciation : number;
  w_amenities : number
}.

Record ScoreBreakdown : Type := mkBreakdown {
  total_score : number;
  price_score : number;
  location_score : number;
  lease_score : number;
  appreciation_score : number;
  amenities_score : number
}.

Record Amenities : Type := mkAmenities {
  schools : number;
  malls : number;
  parks : number;
  hawkers : number
}.

Record UnitData : Type := mkUnit {
  resale_price : number;
  town_median : number;
  mrt_distance : number;
  remaining_lease_years : number;
  price_history : option (list number);
  amenities : option Amenities
}.



Definition DEFAULT_WEIGHTS : ScoreWeights :=
  {| w_price := #0.30;
     w_location := #0.25;
     w_lease := #0.20;
     w_appreciation := #0.15;
     w_amenities := #0.10 |}.

(** [calculatePriceScore], with the operator of its one division as a
    parameter, so that the guard in front of the division can be stated. *)
Definition calculatePriceScore_with (divide : number -> number -> number)
    (unitPrice townMedian : number) : number :=
  if townMedian <=? #0 then #50
  else
    let ratio := divide unitPrice townMedian in
    if ratio <=? #0.70 then #100
    else if ratio >=? #1.50 then #0
    else Math_round (#100 - ((ratio - #0.70) * #125)).

Definition calculatePriceScore (unitPrice townMedian : number) : number :=
  calculatePriceScore_with div unitPrice townMedian.

Definition calculateLocationScore (mrtDistance : number) : number :=
  if mrtDistance <=? #200 then #100
  else if mrtDistance >=? #1000 then #0
  else Math_round (#100 - ((mrtDistance - #200) / #8)).

Definition calculateLeaseScore (remainingYears : number) : number :=
  if remainingYears >=? #90 then #100
  else if remainingYears <? #30 then #0
  else Math_round ((remainingYears - #30) * #1.67).

(** [priceHistory.reduce((sum, y, x) => sum + x * y, 0)], [x] the index. *)
Fixpoint reduce_xy (x : Z) (sum : number) (ys : list number) : number :=
  match ys with
  | [] => sum
  | y :: rest => reduce_xy (x + 1) (sum + of_Z x * y) rest
  end.

Definition calculateAppreciationScore (priceHistory : list number) : number :=
  if (length priceHistory <? 4)%nat then #50
  else
    let n := of_Z (Z.of_nat (length priceHistory)) in
    let xSum := (n * (n - #1)) / #2 in
    let ySum := fold_left (fun a b => a + b) priceHistory #0 in
    let xySum := reduce_xy 0 #0 priceHistory in
    let xxSum := (n * (n - #1) * (#2 * n - #1)) / #6 in
    let slope := (n * xySum - xSum * ySum) / (n * xxSum - xSum * xSum) in
    let avgPrice := ySum / n in
    let annualGrowth := (slope / avgPrice) * #100 * #12 in
    if annualGrowth >=? #5 then #100
    else if annualGrowth <=? neg #5 then #0
    else Math_round (#50 + (annualGrowth * #10)).

Definition calculateAmenitiesScore (a : Amenities) : number :=
  let score := #0 in
  let score := if schools a >? #0 then score + #30 else score in
  let score := if malls a >? #0 then score + #30 else score in
  let score := if parks a >? #0 then score + #20 else score in
  let score := if hawkers a >? #0 then score + #20 else score in
  Math_min score #100.

Definition weighted_sum (weights : ScoreWeights)
    (priceScore locationScore leaseScore appreciationScore amenitiesScore : number)
    : number :=
  priceScore * w_price weights +
  locationScore * w_location weights +
  leaseScore * w_lease weights +
  appreciationScore * w_appreciation weights +
  amenitiesScore * w_amenities weights.


Definition calculateTotalScore (unitData : UnitData) (weights : ScoreWeights)
    : ScoreBreakdown :=
  let priceScore :=
    calculatePriceScore (resale_price unitData) (town_median unitData) in
  let locationScore := calculateLocationScore (mrt_distance unitData) in
  let leaseScore := calculateLeaseScore (remaining_lease_years unitData) in
  let appreciationScore :=
    calculateAppreciationScore
      (match price_history unitData with Some h => h | None => [] end) in
  let amenitiesScore :=
    calculateAmenitiesScore
      (match amenities unitData with
       | Some a => a
       | None => mkAmenities #0 #0 #0 #0
       end) in
  let totalScore :=
    weighted_sum weights priceScore locationScore leaseScore
      appreciationScore amenitiesScore in
  {| total_score := Math_round (totalScore * #10) / #10;
     price_score := priceScore;
     location_score := locationScore;
     lease_score := leaseScore;
     appreciation_score := appreciationScore;
     amenities_score := amenitiesScore |}.

End Scoring.

(* ================================================================== *)
(** * lib/onemap.ts: amenity count *)
(* ================================================================== *)

(** What the themes endpoint can answer.  Only the [SrchResults] member of
    the JSON body is read by the client. *)
Module Themes.

(** The value of [data.SrchResults]. *)
Inductive SrchResults : Type :=
| Missing                              (* undefined, null or another falsy value *)
| TruthyNonArray (length : option Z)   (* a truthy non-array and its [length], if it has one *)
| ArrayOf (items : list string).       (* an array of JSON objects *)

(** The outcome of [fetch] followed by [response.json()]. *)
Inductive ThemeFetch : Type :=
| Rejected                             (* [fetch] or [json()] throws *)
| NotOk (status : Z)                   (* [!response.ok] *)
| Ok (data_SrchResults : SrchResults).

Inductive AmenityTheme : Type :=
| national_primary_schools
| ssot_hawkercentres
| nationalparks
| shopping_malls
| childcare
| hawkercentre
| national_parks
| preschools
| parks
| communityclubs.

Definition theme_name (t : AmenityTheme) : string :=
  match t with
  | national_primary_schools => "national_primary_schools"
  | ssot_hawkercentres => "ssot_hawkercentres"
  | nationalparks => "nationalparks"
  | shopping_malls => "shopping_malls"
  | childcare => "childcare"
  | hawkercentre => "hawkercentre"
  | national_parks => "national_parks"
  | preschools => "preschools"
  | parks => "parks"
  | communityclubs => "communityclubs"
  end.

(** The bounding box [extents] of a query, as the four numbers that are
    formatted into the URL. *)
Record Extents : Type := mkExtents {
  lon_min : JS.number;
  lat_min : JS.number;
  lon_max : JS.number;
  lat_max : JS.number
}.

(** The provider: the answer to [retrieveTheme?queryName=..&extents=..]
    sent with a token. *)
Definition Provider : Type := string -> Extents -> string -> ThemeFetch.

Definition extents_of (latitude longitude : JS.number) : Extents :=
  let latOffset := (#0.0045)%js in
  let lonOffset := (#0.0045)%js in
  {| lon_min := (longitude - lonOffset)%js;
     lat_min := (latitude - latOffset)%js;
     lon_max := (longitude + lonOffset)%js;
     lat_max := (latitude + latOffset)%js |}.

End Themes.

(** The current client: themes are mapped to the production names and the
    metadata row is subtracted only when there is more than one row. *)
Module OneMap.
Import JS Themes.

Definition themeMapping (theme : AmenityTheme) : option string :=
  match theme with
  | hawkercentre => Some "ssot_hawkercentres"%string
  | national_parks => Some "nationalparks"%string
  | preschools => Some "childcare"%string
  | _ => None
  end.

Definition getNearbyAmenities (provider : Provider)
    (latitude longitude : number) (theme : AmenityTheme) (token : string)
    : number :=
  let actualTheme :=
    match themeMapping theme with
    | Some mapped => mapped
    | None => theme_name theme
    end in
  match provider actualTheme (extents_of latitude longitude) token with
  | Rejected => of_Z 0
  | NotOk status => if (status =? 404)%Z then of_Z 0 else of_Z 0
  | Ok (ArrayOf items) =>
      if (1 <? Z.of_nat (length items))%Z
      then of_Z (Z.of_nat (length items) - 1)
      else of_Z 0
  | Ok _ => of_Z 0
  end.

End OneMap.

(** The older client kept in the repository: no theme mapping, and the
    metadata row is subtracted whenever [SrchResults] is truthy. *)
Module OneMapLegacy.
Import JS Themes.

Definition getNearbyAmenities (provider : Provider)
    (latitude longitude : number) (theme : AmenityTheme) (token : string)
    : number :=
  match provider (theme_name theme) (extents_of latitude longitude) token with
  | Rejected => of_Z 0
  | NotOk _ => of_Z 0
  | Ok Missing => of_Z 0
  | Ok (TruthyNonArray (Some len)) => of_Z (len - 1)
  | Ok (TruthyNonArray None) => NaN
  | Ok (ArrayOf items) => of_Z (Z.of_nat (length items) - 1)
  end.

End OneMapLegacy.

(* ================================================================== *)
(** * JavaScript built-ins used by the sync handler *)
(* ================================================================== *)

Module Builtins.
Local Open Scope Z_scope.

(** White space skipped by [parseInt] (the ASCII part of StrWhiteSpaceChar). *)
Definition is_ws (c : ascii) : bool :=
  let n := Z.of_nat (nat_of_ascii c) in
  ((9 <=? n) && (n <=? 13)) || (n =? 32).

Fixpoint trim_start (s : string) : string :=
  match s with
  | String c rest => if is_ws c then trim_start rest else s
  | EmptyString => s
  end.

Definition digit_value (radix : Z) (c : ascii) : option Z :=
  let n := Z.of_nat (nat_of_ascii c) in
  let v :=
    if (48 <=? n) && (n <=? 57) then n - 48
    else if (97 <=? n) && (n <=? 122) then n - 97 + 10
    else if (65 <=? n) && (n <=? 90) then n - 65 + 10
    else radix in
  if v <? radix then Some v else None.

(** The longest prefix of digits of the radix, read as a number; [None]
    when there is no digit. *)
Fixpoint parse_digits (radix : Z) (acc : option Z) (s : string) : option Z :=
  match s with
  | String c rest =>
      match digit_value radix c with
      | Some d =>
          parse_digits radix
            (Some (match acc with Some a => a | None => 0 end * radix + d)) rest
      | None => acc
      end
  | EmptyString => acc
  end.

(** [parseInt(s)] without a radix; [None] is NaN. *)
Definition parseInt (s : string) : option Z :=
  let s := trim_start s in
  let '(sign, s) :=
    match s with
    | String "-"%char rest => (-1, rest)
    | String "+"%char rest => (1, rest)
    | _ => (1, s)
    end in
  let '(radix, s) :=
    match s with
    | String "0"%char (String "x"%char rest) => (16, rest)
    | String "0"%char (String "X"%char rest) => (16, rest)
    | _ => (10, s)
    end in
  option_map (Z.mul sign) (parse_digits radix None s).

End Builtins.

(* ================================================================== *)
(** * schema.sql: the tables of the D1 database *)
(* ================================================================== *)

Module Schema.
Import JS.

(** A row of [hdb_transactions].  TEXT columns are strings, INTEGER
    columns are [option Z] with [None] for NULL.  The REAL columns
    [floor_area_sqm] and [price_per_sqm] and the columns [id],
    [mrt_distance], [nearest_mrt] and [created_at] take part in no
    constraint and in no query modelled here and are left out. *)
Record Transaction : Type := mkTransaction {
  transaction_date : string;
  month : string;
  town : string;
  flat_type : string;
  block : string;
  street_name : string;
  storey_range : string;
  flat_model : string;
  lease_commence_date : option Z;
  remaining_lease : string;
  remaining_lease_years : option Z;
  resale_price : option Z;
  latitude : option number;
  longitude : option number
}.

(** UNIQUE(month, town, flat_type, block, street_name, storey_range,
    resale_price). *)
Definition NaturalKey : Type :=
  (string * string * string * string * string * string * Z)%type.

Definition natural_key (t : Transaction) : option NaturalKey :=
  match resale_price t with
  | Some price =>
      Some (month t, town t, flat_type t, block t, street_name t,
            storey_range t, price)
  | None => None
  end.

Definition key_eqb (a b : NaturalKey) : bool :=
  let '(m1, t1, f1, b1, s1, r1, p1) := a in
  let '(m2, t2, f2, b2, s2, r2, p2) := b in
  String.eqb m1 m2 && String.eqb t1 t2 && String.eqb f1 f2 &&
  String.eqb b1 b2 && String.eqb s1 s2 && String.eqb r1 r2 && Z.eqb p1 p2.

(** A row of [price_statistics]; UNIQUE(town, flat_type, month). *)
Record PriceStatistics : Type := mkStatistics {
  ps_town : string;
  ps_flat_type : string;
  ps_month : string;
  median_price : option Z;
  avg_price : option Z;
  min_price : option Z;
  max_price : option Z;
  transaction_count : Z;
  ps_updated_at : string
}.

(** A row of [unit_scores]; UNIQUE(block, street_name, town, flat_type). *)
Record UnitScore : Type := mkUnitScore {
  us_block : string;
  us_street_name : string;
  us_town : string;
  us_flat_type : string;
  us_score : Scoring.ScoreBreakdown;
  us_mrt_distance : number;
  us_nearest_mrt : string;
  nearby_schools : number;
  nearby_malls : number;
  nearby_parks : number;
  calculated_at : string
}.

Inductive SyncStatus : Type := pending | running | completed | failed.

(** A row of [sync_metadata]; UNIQUE(sync_type). *)
Record SyncMetadata : Type := mkSync {
  sync_type : string;
  last_sync_at : option string;
  records_processed : Z;
  status : SyncStatus;
  error_message : option string
}.

Record Database : Type := mkDatabase {
  hdb_transactions : list Transaction;
  price_statistics : list PriceStatistics;
  unit_scores : list UnitScore;
  sync_metadata : list SyncMetadata
}.

(** The rows created by the INSERT OR IGNORE statements that close
    [schema.sql]. *)
Definition initial_sync_metadata : list SyncMetadata :=
  [ mkSync "hdb_data" None 0 pending None;
    mkSync "geocode" None 0 pending None;
    mkSync "scores" None 0 pending None ].

Definition empty_database : Database :=
  mkDatabase [] [] [] initial_sync_metadata.

End Schema.

(* ================================================================== *)
(** * lib/db.ts *)
(* ================================================================== *)

Module Db.
Import Builtins.
Local Open Scope Z_scope.

Definition is_digit (c : ascii) : bool :=
  let n := Z.of_nat (nat_of_ascii c) in (48 <=? n) && (n <=? 57).

(** The longest prefix of decimal digits and what follows it. *)
Fixpoint span_digits (s : string) : string * string :=
  match s with
  | String c rest =>
      if is_digit c
      then let '(ds, after) := span_digits rest in (String c ds, after)
      else (EmptyString, s)
  | EmptyString => (EmptyString, EmptyString)
  end.

Definition lower (c : ascii) : ascii :=
  let n := nat_of_ascii c in
  if ((65 <=? n) && (n <=? 90))%nat then ascii_of_nat (n + 32) else c.

(** Does [s] start with "year", in any case? *)
Definition starts_with_year (s : string) : bool :=
  match s with
  | String y (String e (String a (String r _))) =>
      Ascii.eqb (lower y) "y" && Ascii.eqb (lower e) "e" &&
      Ascii.eqb (lower a) "a" && Ascii.eqb (lower r) "r"
  | _ => false
  end.

(** The first capture of the leftmost match of [/(\d+)\s*years?/i]. *)
Fixpoint match_years (s : string) : option string :=
  match s with
  | String _ rest =>
      let '(ds, after) := span_digits s in
      match ds with
      | String _ _ =>
          if starts_with_year (trim_start after) then Some ds
          else match_years rest
      | EmptyString => match_years rest
      end
  | EmptyString => None
  end.

Definition extractLeaseYears (leaseString : string) : option Z :=
  match leaseString with
  | EmptyString => None
  | _ =>
      match match_years leaseString with
      | Some digits => parseInt digits
      | None => None
      end
  end.

End Db.

(* ================================================================== *)
(** * The upstream feed and the clock *)
(* ================================================================== *)

Module Upstream.

Record HDBRecord : Type := mkRecord {
  month : string;
  town : string;
  flat_type : string;
  block : string;
  street_name : string;
  storey_range : string;
  floor_area_sqm : string;
  flat_model : string;
  lease_commence_date : string;
  remaining_lease : string;
  resale_price : string
}.

(** The outcome of [fetch(apiUrl)] followed by [response.json()]. *)
Inductive FetchResult : Type :=
| Rejected (error : string)                       (* [fetch] or [json()] throws *)
| HttpError (status : Z) (statusText : string)    (* [!response.ok] *)
| Json (success : bool) (records : list HDBRecord).

(** The feed sorted by month, newest first: the answer to the request for
    the page that starts at an offset (the resource, the page size and the
    sort order are fixed by the handler). *)
Definition Source : Type := Z -> FetchResult.

End Upstream.

(** The readings of the clock taken during one invocation. *)
Record Clock : Type := mkClock {
  now_iso : string;                (* new Date().toISOString() *)
  six_months_ago : string;         (* sixMonthsAgo.toISOString().substring(0, 7) *)
  sql_six_months_ago : string;     (* date('now', '-6 months') *)
  sql_thirty_days_ago : string;    (* date('now', '-30 days') *)
  current_timestamp : string       (* CURRENT_TIMESTAMP *)
}.

(* ================================================================== *)
(** * The SQL statements issued by the handlers *)
(* ================================================================== *)

Module Sql.
Import JS Schema.

(** ** Aggregates *)

Definition string_max (a b : string) : string :=
  if (a <? b)%string then b else a.

(** [MAX(col)] over TEXT values; NULL on no row. *)
Definition sql_max_text (values : list string) : option string :=
  fold_left
    (fun acc v =>
       match acc with
       | None => Some v
       | Some m => Some (string_max m v)
       end)
    values None.

(** The non-NULL values of a column. *)
Definition non_null (values : list (option Z)) : list Z :=
  flat_map (fun v => match v with Some z => [z] | None => [] end) values.

Definition sum_Z (values : list Z) : Z := fold_left Z.add values 0%Z.

(** [AVG(col)]: NULL when every value is NULL. *)
Definition sql_avg (values : list (option Z)) : option Q :=
  match non_null values with
  | [] => None
  | vs => Some (inject_Z (sum_Z vs) / inject_Z (Z.of_nat (length vs)))
  end.

(** [ROUND(x)]: the nearest integer, ties away from zero. *)
Definition sql_round (x : Q) : Z :=
  if Qle_bool 0 x then Qfloor (x + 0.5) else Qceiling (x - 0.5).

Definition sql_min (values : list (option Z)) : option Z :=
  match non_null values with
  | [] => None
  | v :: vs => Some (fold_left Z.min vs v)
  end.

Definition sql_max (values : list (option Z)) : option Z :=
  match non_null values with
  | [] => None
  | v :: vs => Some (fold_left Z.max vs v)
  end.

(** ** hdb_transactions *)

Definition has_key (k : NaturalKey) (t : Transaction) : bool :=
  match natural_key t with
  | Some k' => key_eqb k k'
  | None => false
  end.

(** A row of the key is in the table. *)
Definition present (k : NaturalKey) (table : list Transaction) : Prop :=
  existsb (has_key k) table = true.

(** [INSERT OR IGNORE INTO hdb_transactions ... VALUES (...)]: the new
    table and [meta.changes].  A NULL price violates NOT NULL and a key
    already present violates UNIQUE; on either the row is skipped. *)
Definition insert_or_ignore (row : Transaction) (table : list Transaction)
    : list Transaction * Z :=
  match natural_key row with
  | None => (table, 0%Z)
  | Some k =>
      if existsb (has_key k) table then (table, 0%Z)
      else (table ++ [row], 1%Z)
  end.

(** A sequence of INSERT OR IGNORE statements: the new table and the
    number of rows inserted. *)
Fixpoint insert_all (rows : list Transaction) (table : list Transaction)
    : list Transaction * Z :=
  match rows with
  | [] => (table, 0%Z)
  | row :: rest =>
      let '(table', changes) := insert_or_ignore row table in
      let '(table'', inserted) := insert_all rest table' in
      (table'', (changes + inserted)%Z)
  end.

(** [UPDATE hdb_transactions SET latitude = ?, longitude = ?
     WHERE block = ? AND street_name = ?]. *)
Definition update_coordinates (lat lon : number) (blk street : string)
    (table : list Transaction) : list Transaction :=
  map (fun t =>
         if String.eqb (block t) blk && String.eqb (street_name t) street
         then mkTransaction (transaction_date t) (month t) (town t)
                (flat_type t) (block t) (street_name t) (storey_range t)
                (flat_model t) (lease_commence_date t) (remaining_lease t)
                (remaining_lease_years t) (resale_price t)
                (Some lat) (Some lon)
         else t)
      table.

(** ** price_statistics *)

Definition GroupKey : Type := (string * string * string)%type.

Definition group_of (t : Transaction) : GroupKey :=
  (town t, flat_type t, month t).

Definition group_eqb (a b : GroupKey) : bool :=
  let '(t1, f1, m1) := a in
  let '(t2, f2, m2) := b in
  String.eqb t1 t2 && String.eqb f1 f2 && String.eqb m1 m2.

(** The distinct groups of GROUP BY, in order of first appearance. *)
Fixpoint distinct_groups (seen : list GroupKey) (rows : list Transaction)
    : list GroupKey :=
  match rows with
  | [] => []
  | t :: rest =>
      if existsb (group_eqb (group_of t)) seen
      then distinct_groups seen rest
      else group_of t :: distinct_groups (group_of t :: seen) rest
  end.

Definition group_rows (g : GroupKey) (rows : list Transaction)
    : list Transaction :=
  filter (fun t => group_eqb g (group_of t)) rows.

(** The SELECT list of [updateStatistics] for one group. *)
Definition aggregate_group (now : string) (g : GroupKey)
    (rows : list Transaction) : PriceStatistics :=
  let prices := map resale_price rows in
  let '(g_town, g_flat_type, g_month) := g in
  {| ps_town := g_town;
     ps_flat_type := g_flat_type;
     ps_month := g_month;
     median_price := option_map sql_round (sql_avg prices);
     avg_price := option_map sql_round (sql_avg prices);
     min_price := sql_min prices;
     max_price := sql_max prices;
     transaction_count := Z.of_nat (length rows);
     ps_updated_at := now |}.

Definition stat_group (s : PriceStatistics) : GroupKey :=
  (ps_town s, ps_flat_type s, ps_month s).

(** [INSERT OR REPLACE INTO price_statistics]: a row of the same
    (town, flat_type, month) is replaced. *)
Definition insert_or_replace_stat (row : PriceStatistics)
    (table : list PriceStatistics) : list PriceStatistics :=
  filter (fun s => negb (group_eqb (stat_group row) (stat_group s))) table
  ++ [row].

(** The statement of [updateStatistics]:
    [INSERT OR REPLACE INTO price_statistics SELECT ... FROM hdb_transactions
     WHERE month >= date('now', '-6 months') GROUP BY town, flat_type, month]. *)
Definition recompute_statistics (cutoff now : string) (db : Database)
    : list PriceStatistics :=
  let window :=
    filter (fun t => (cutoff <=? month t)%string) (hdb_transactions db) in
  fold_left
    (fun table g =>
       insert_or_replace_stat (aggregate_group now g (group_rows g window))
         table)
    (distinct_groups [] window) (price_statistics db).

(** ** unit_scores *)

Definition same_unit (a b : UnitScore) : bool :=
  String.eqb (us_block a) (us_block b) &&
  String.eqb (us_street_name a) (us_street_name b) &&
  String.eqb (us_town a) (us_town b) &&
  String.eqb (us_flat_type a) (us_flat_type b).

Definition insert_or_replace_score (row : UnitScore)
    (table : list UnitScore) : list UnitScore :=
  filter (fun s => negb (same_unit row s)) table ++ [row].

(** ** sync_metadata *)

Definition update_sync (f : SyncMetadata -> SyncMetadata)
    (table : list SyncMetadata) : list SyncMetadata :=
  map (fun r => if String.eqb (sync_type r) "hdb_data" then f r else r) table.

Definition set_running (now : string) (r : SyncMetadata) : SyncMetadata :=
  mkSync (sync_type r) (Some now) (records_processed r) running
    (error_message r).

Definition set_completed (n : Z) (r : SyncMetadata) : SyncMetadata :=
  mkSync (sync_type r) (last_sync_at r) n completed None.

Definition set_failed (msg : string) (r : SyncMetadata) : SyncMetadata :=
  mkSync (sync_type r) (last_sync_at r) (records_processed r) failed
    (Some msg).

End Sql.

(* ================================================================== *)
(** * pages/api/cron.ts: the sync trigger *)
(* ================================================================== *)

Module Cron.
Import JS Schema Sql Builtins.
Import Upstream (HDBRecord, FetchResult, Rejected, HttpError, Json, Source).

Definition limit : Z := 1000.
Definition maxPages : Z := 50.
Definition batchSize : nat := 50.

(** ** The statements sent to the database, and the store they act on

    Every statement is taken to succeed: the only exceptions modelled are
    those of the requests to the upstream feed. *)

Inductive Stmt : Type :=
| UpdateSyncRunning (now : string)
| SelectMaxMonth
| InsertOrIgnoreTransaction (row : Transaction)
| RecomputeStatistics (cutoff now : string)
| SelectLatestMedians
| SelectBacklog (cutoff : string)
| InsertOrReplaceUnitScore (row : UnitScore)
| UpdateCoordinates (lat lon : number) (blk street : string)
| UpdateSyncCompleted (insertedCount : Z)
| UpdateSyncFailed (message : string).

(** The effect of a statement on the tables; a SELECT changes nothing. *)
Definition run (s : Stmt) (d : Database) : Database :=
  match s with
  | UpdateSyncRunning now =>
      mkDatabase (hdb_transactions d) (price_statistics d) (unit_scores d)
        (update_sync (set_running now) (sync_metadata d))
  | InsertOrIgnoreTransaction row =>
      mkDatabase (fst (insert_or_ignore row (hdb_transactions d)))
        (price_statistics d) (unit_scores d) (sync_metadata d)
  | RecomputeStatistics cutoff now =>
      mkDatabase (hdb_transactions d) (recompute_statistics cutoff now d)
        (unit_scores d) (sync_metadata d)
  | InsertOrReplaceUnitScore row =>
      mkDatabase (hdb_transactions d) (price_statistics d)
        (insert_or_replace_score row (unit_scores d)) (sync_metadata d)
  | UpdateCoordinates lat lon blk street =>
      mkDatabase (update_coordinates lat lon blk street (hdb_transactions d))
        (price_statistics d) (unit_scores d) (sync_metadata d)
  | UpdateSyncCompleted n =>
      mkDatabase (hdb_transactions d) (price_statistics d) (unit_scores d)
        (update_sync (set_completed n) (sync_metadata d))
  | UpdateSyncFailed message =>
      mkDatabase (hdb_transactions d) (price_statistics d) (unit_scores d)
        (update_sync (set_failed message) (sync_metadata d))
  | SelectMaxMonth | SelectLatestMedians | SelectBacklog _ => d
  end.

(** The database together with the statements executed so far. *)
Record Store : Type := mkStore {
  db : Database;
  trace : list Stmt
}.

Definition exec (s : Stmt) (st : Store) : Store :=
  {| db := run s (db st); trace := trace st ++ [s] |}.

(** ** Authorization *)

Record Request : Type := mkRequest {
  cf_cron : option string;     (* the header [cf-cron] *)
  secret : option string       (* the query parameter [secret] *)
}.

Definition isCron (request : Request) : bool :=
  match cf_cron request with
  | Some v => String.eqb v "true"
  | None => false
  end.

Definition secret_matches (request : Request) : bool :=
  match secret request with
  | Some v => String.eqb v "manual-sync-trigger"
  | None => false
  end.

(** [!isCron && secret !== 'manual-sync-trigger'] is false. *)
Definition authorized (request : Request) : bool :=
  negb (negb (isCron request) && negb (secret_matches request)).

(** ** The watermark *)

(** [SELECT MAX(month) as max_month FROM hdb_transactions]. *)
Definition select_max_month (d : Database) : option string :=
  sql_max_text (map month (hdb_transactions d)).

(** [filterDate]: six months ago, or [lastDbMonth] when it is truthy and
    later. *)
Definition watermark (lastDbMonth : option string) (sixMonthsAgo : string)
    : string :=
  let filterDate := sixMonthsAgo in
  match lastDbMonth with
  | Some m =>
      if negb (String.eqb m "") && (filterDate <? m)%string then m
      else filterDate
  | None => filterDate
  end.

(** ** The page-fetch loop *)

(** The exit taken out of the [while] loop. *)
Inductive StopReason : Type :=
| OffsetLimit          (* [offset < 200000] is false *)
| RateLimited          (* status 429 *)
| NoData               (* [data.success] false or no record in the page *)
| NewestOlder          (* [newestInBatch < filterDate] *)
| ShortPage            (* [records.length < limit] *)
| NoRelevantRecords    (* nothing relevant in the first 5000 records *)
| SafetyCap.           (* [offset / limit >= maxPages] *)

Inductive LoopOutcome : Type :=
| Stopped (why : StopReason) (allRecords : list HDBRecord)
| Threw (error : string).

Definition string_of_Z (z : Z) : string := NilZero.string_of_int (Z.to_int z).

Section FetchLoop.

Variable source : Source.
Variable filterDate : string.

(** [r.month >= filterDate]. *)
Definition relevant (r : HDBRecord) : bool :=
  (filterDate <=? Upstream.month r)%string.

(** What one pass through the body of the [while] loop does: it leaves the
    loop by [break] or by [throw], or it falls through to the next pass
    with the new [offset] and [allRecords]. *)
Inductive Pass : Type :=
| Break (why : StopReason) (allRecords : list HDBRecord)
| Throw (error : string)
| Next (offset : Z) (allRecords : list HDBRecord).

Definition iteration (offset : Z) (allRecords : list HDBRecord) : Pass :=
  match source offset with
  | Rejected error => Throw error
  | HttpError status statusText =>
      if (status =? 429)%Z then Break RateLimited allRecords
      else Throw ("Error: HDB API returned " ++ string_of_Z status
                  ++ ": " ++ statusText)
  | Json true ((newest :: _) as records) =>
      let newestInBatch := Upstream.month newest in
      let filtered := filter relevant records in
      let allRecords :=
        if (0 <? length filtered)%nat then allRecords ++ filtered
        else allRecords in
      if (newestInBatch <? filterDate)%string
      then Break NewestOlder allRecords
      else if (Z.of_nat (length records) <? limit)%Z
      then Break ShortPage allRecords
      else
        let offset := (offset + limit)%Z in
        if (length allRecords =? 0)%nat && (5000 <? offset)%Z
        then Break NoRelevantRecords allRecords
        else if (maxPages <=? offset / limit)%Z
        then Break SafetyCap allRecords
        else Next offset allRecords
  | Json _ _ => Break NoData allRecords
  end.

(** The [while] loop; [fuel] bounds the number of passes, and [None] is
    returned when it runs out. *)
Fixpoint fetchLoop (fuel : nat) (offset : Z) (allRecords : list HDBRecord)
    : option LoopOutcome :=
  match fuel with
  | O => None
  | S fuel' =>
      if (offset <? 200000)%Z then
        match iteration offset allRecords with
        | Break why allRecords => Some (Stopped why allRecords)
        | Throw error => Some (Threw error)
        | Next offset allRecords => fetchLoop fuel' offset allRecords
        end
      else Some (Stopped OffsetLimit allRecords)
  end.

(** ** The stop conditions, page by page *)

(** The records of a page that pass the watermark filter. *)
Definition page_records (response : FetchResult) : list HDBRecord :=
  match response with
  | Json true records => filter relevant records
  | _ => []
  end.

(** The answer for the page numbered [k], from 0. *)
Definition page_at (k : nat) : FetchResult :=
  source (limit * Z.of_nat k)%Z.

(** The relevant records of the [n] pages from page [k] on. *)
Definition pages_from (k n : nat) : list HDBRecord :=
  flat_map (fun i => page_records (page_at i)) (seq k n).

(** The relevant records of the first [n] pages. *)
Definition pages_upto (n : nat) : list HDBRecord := pages_from 0 n.

(** The upstream answered with 429. *)
Definition rate_limited (response : FetchResult) : bool :=
  match response with
  | HttpError status _ => (status =? 429)%Z
  | _ => false
  end.

(** The request failed: no answer, or an error status other than 429. *)
Definition request_failed (response : FetchResult) : option string :=
  match response with
  | Rejected error => Some error
  | HttpError status statusText =>
      if (status =? 429)%Z then None
      else Some ("Error: HDB API returned " ++ string_of_Z status
                 ++ ": " ++ statusText)%string
  | Json _ _ => None
  end.

(** The payload is flagged unsuccessful or holds no record. *)
Definition no_data (response : FetchResult) : bool :=
  match response with
  | Json true (_ :: _) => false
  | Json _ _ => true
  | _ => false
  end.

(** The newest record of the page is older than the watermark. *)
Definition newest_older (response : FetchResult) : bool :=
  match response with
  | Json true (newest :: _) => (Upstream.month newest <? filterDate)%string
  | _ => false
  end.

(** The page holds fewer records than the page size. *)
Definition short_page (response : FetchResult) : bool :=
  match response with
  | Json _ records => (Z.of_nat (length records) <? limit)%Z
  | _ => false
  end.

(** The page-count cap is reached once the page numbered [page] (from 0)
    has been read. *)
Definition cap_reached (page : nat) : bool :=
  (maxPages <=? Z.of_nat page + 1)%Z.

(** How the loop ends. *)
Inductive LoopExit : Type :=
| Stop (why : StopReason)
| Failure (error : string).

(** The exit taken at a page, if any, by the first condition that holds in
    the order in which the loop tests them. *)
Definition page_exit (page : nat) (response : FetchResult)
    : option LoopExit :=
  match request_failed response with
  | Some error => Some (Failure error)
  | None =>
      if rate_limited response then Some (Stop RateLimited)
      else if no_data response then Some (Stop NoData)
      else if newest_older response then Some (Stop NewestOlder)
      else if short_page response then Some (Stop ShortPage)
      else if cap_reached page then Some (Stop SafetyCap)
      else None
  end.

Definition outcome_of (exit : LoopExit) (allRecords : list HDBRecord)
    : LoopOutcome :=
  match exit with
  | Stop why => Stopped why allRecords
  | Failure error => Threw error
  end.

(** The exits that can be taken: every one but the guard of the [while]
    and the test on the first 5000 records. *)
Definition reachable_exit (exit : LoopExit) : Prop :=
  match exit with
  | Stop OffsetLimit | Stop NoRelevantRecords => False
  | _ => True
  end.

End FetchLoop.

(** The loop as the handler starts it.  The guard [offset < 200000] and the
    step of [limit] allow 200 iterations. *)
Definition fetchAll (source : Source) (filterDate : string)
    : option LoopOutcome :=
  fetchLoop source filterDate 200 0 [].

(** ** Batch insert *)

(** The values bound to the INSERT statement for one record.  A number
    that does not parse is NaN, which is bound as NULL. *)
Definition transaction_of (record : HDBRecord) : Transaction :=
  {| transaction_date := Upstream.month record ++ "-01";
     month := Upstream.month record;
     town := Upstream.town record;
     flat_type := Upstream.flat_type record;
     block := Upstream.block record;
     street_name := Upstream.street_name record;
     storey_range := Upstream.storey_range record;
     flat_model := Upstream.flat_model record;
     lease_commence_date := parseInt (Upstream.lease_commence_date record);
     remaining_lease := Upstream.remaining_lease record;
     remaining_lease_years :=
       Db.extractLeaseYears (Upstream.remaining_lease record);
     resale_price := parseInt (Upstream.resale_price record);
     latitude := None;
     longitude := None |}.

(** [allRecords.slice(i, i + batchSize)]. *)
Definition slice {A : Type} (i j : nat) (l : list A) : list A :=
  firstn (j - i) (skipn i l).

(** The values of [i] in [for (let i = 0; i < len; i += step)]. *)
Definition for_indices (len step : nat) : list nat :=
  map (fun k => k * step)%nat (seq 0 ((len + step - 1) / step)).

(** [DB.batch(statements)]: the statements run in order; the result is the
    store and the [meta.changes] of each statement. *)
Fixpoint batch (statements : list Transaction) (st : Store)
    : Store * list Z :=
  match statements with
  | [] => (st, [])
  | row :: rest =>
      let changes := snd (insert_or_ignore row (hdb_transactions (db st))) in
      let '(st', results) := batch rest (exec (InsertOrIgnoreTransaction row) st) in
      (st', changes :: results)
  end.

(** The store after a sequence of INSERT OR IGNORE statements. *)
Definition inserted (rows : list Transaction) (st : Store) : Store :=
  {| db :=
       mkDatabase (fst (insert_all rows (hdb_transactions (db st))))
         (price_statistics (db st)) (unit_scores (db st))
         (sync_metadata (db st));
     trace := trace st ++ map InsertOrIgnoreTransaction rows |}.

Definition insertRecords (allRecords : list HDBRecord) (st : Store)
    : Store * Z :=
  fold_left
    (fun '(st, insertedCount) i =>
       let batchRecords := slice i (i + batchSize) allRecords in
       let statements := map transaction_of batchRecords in
       let '(st', results) := batch statements st in
       let batchInserted :=
         Z.of_nat (length (filter (fun changes => 0 <? changes)%Z results)) in
       (st', (insertedCount + batchInserted)%Z))
    (for_indices (length allRecords) batchSize)
    (st, 0%Z).

(** ** updateStatistics *)

Definition updateStatistics (clock : Clock) (st : Store) : Store :=
  exec (RecomputeStatistics (sql_six_months_ago clock) (current_timestamp clock))
    st.

(** ** populateUnitScores *)

Record Coordinates : Type := mkCoordinates {
  c_latitude : number;
  c_longitude : number
}.

Record NearbyMRT : Type := mkNearbyMRT {
  mrt_name : string;
  distance : number
}.

(** The configuration of the worker and the answers of the enrichment
    provider to the three other calls of [lib/onemap.ts]. *)
Record Enrichment : Type := mkEnrichment {
  ONEMAP_EMAIL : option string;
  ONEMAP_PASSWORD : option string;
  getOneMapToken : string -> string -> option string;
  getCoordinates : string -> string -> option Coordinates;
  getNearestMRT : number -> number -> string -> option NearbyMRT;
  themes : Themes.Provider
}.

(** A string of the environment is truthy when it is set and not empty. *)
Definition truthy (v : option string) : option string :=
  match v with
  | Some EmptyString | None => None
  | Some s => Some s
  end.

(** [x || d] for a nullable integer column. *)
Definition or_default (x : option Z) (d : Z) : Z :=
  match x with
  | Some z => if (z =? 0)%Z then d else z
  | None => d
  end.

(** [SELECT town, flat_type, median_price FROM price_statistics
     WHERE month = (SELECT MAX(month) FROM price_statistics)]. *)
Definition select_latest_medians (d : Database) : list PriceStatistics :=
  match sql_max_text (map ps_month (price_statistics d)) with
  | Some latest =>
      filter (fun s => String.eqb (ps_month s) latest) (price_statistics d)
  | None => []
  end.

(** [medianMap.get(`${town}:${flat_type}`)]; a later [set] of the same key
    wins. *)
Definition medianMap_get (rows : list PriceStatistics) (key : string)
    : option (option Z) :=
  fold_left
    (fun found row =>
       if String.eqb (ps_town row ++ ":" ++ ps_flat_type row) key
       then Some (median_price row)
       else found)
    rows None.

(** A REAL column read back as NULL: NaN and the infinities are bound as
    NULL. *)
Definition sql_is_null (x : number) : bool := negb (is_finite x).

(** The selection of the blocks to score: the latest transaction of each
    (block, street_name) whose score is missing or older than the cutoff, at
    most 200 rows, in table order. *)
Definition select_backlog (cutoff : string) (d : Database)
    : list Transaction :=
  let same_address (t u : Transaction) :=
    String.eqb (block t) (block u) &&
    String.eqb (street_name t) (street_name u) in
  let is_latest (t : Transaction) :=
    match sql_max_text
            (map transaction_date (filter (same_address t) (hdb_transactions d)))
    with
    | Some max_date => String.eqb (transaction_date t) max_date
    | None => false
    end in
  let scores_of (t : Transaction) :=
    filter (fun s => String.eqb (block t) (us_block s) &&
                     String.eqb (street_name t) (us_street_name s))
           (unit_scores d) in
  firstn 200
    (flat_map
       (fun t =>
          if is_latest t then
            match scores_of t with
            | [] => [t]
            | joined =>
                flat_map
                  (fun s =>
                     if sql_is_null (Scoring.total_score (us_score s)) ||
                        (calculated_at s <? cutoff)%string
                     then [t] else [])
                  joined
            end
          else [])
       (hdb_transactions d)).

(** A nullable INTEGER column read as a number; NULL counts as 0 in
    arithmetic. *)
Definition number_of_column (x : option Z) : number :=
  match x with
  | Some z => of_Z z
  | None => of_Z 0
  end.

(** The body of the enrichment loop for one transaction. *)
Definition enrich_one (env : Enrichment) (clock : Clock) (token : string)
    (medians : list PriceStatistics) (txn : Transaction) (st : Store)
    : Store :=
  match getCoordinates env (block txn) (street_name txn) with
  | None => st
  | Some coords =>
      let lat := c_latitude coords in
      let lon := c_longitude coords in
      let mrt := getNearestMRT env lat lon token in
      let near := OneMap.getNearbyAmenities (themes env) lat lon in
      let schools := near Themes.preschools token in
      let malls := near Themes.shopping_malls token in
      let parks := near Themes.national_parks token in
      let hawkers := near Themes.hawkercentre token in
      let townMedian :=
        match medianMap_get medians (town txn ++ ":" ++ flat_type txn) with
        | Some median => or_default median 0
        | None => 0%Z
        end in
      let unitData :=
        {| Scoring.resale_price := number_of_column (resale_price txn);
           Scoring.town_median := of_Z townMedian;
           Scoring.mrt_distance :=
             match mrt with Some m => distance m | None => of_Z 1500 end;
           Scoring.remaining_lease_years :=
             of_Z (or_default (remaining_lease_years txn) 95);
           Scoring.price_history := Some [];
           Scoring.amenities :=
             Some (Scoring.mkAmenities schools malls parks hawkers) |} in
      let score := Scoring.calculateTotalScore unitData Scoring.DEFAULT_WEIGHTS in
      let st :=
        exec (InsertOrReplaceUnitScore
                {| us_block := block txn;
                   us_street_name := street_name txn;
                   us_town := town txn;
                   us_flat_type := flat_type txn;
                   us_score := score;
                   us_mrt_distance := Scoring.mrt_distance unitData;
                   us_nearest_mrt :=
                     match mrt with
                     | Some m => mrt_name m
                     | None => "None nearby"
                     end;
                   nearby_schools := schools;
                   nearby_malls := malls;
                   nearby_parks := parks;
                   calculated_at := current_timestamp clock |})
             st in
      exec (UpdateCoordinates lat lon (block txn) (street_name txn)) st
  end.

Definition populateUnitScores (env : Enrichment) (clock : Clock) (st : Store)
    : Store :=
  match truthy (ONEMAP_EMAIL env), truthy (ONEMAP_PASSWORD env) with
  | Some email, Some password =>
      match truthy (getOneMapToken env email password) with
      | None => st
      | Some token =>
          let st := exec SelectLatestMedians st in
          let medians := select_latest_medians (db st) in
          let st := exec (SelectBacklog (sql_thirty_days_ago clock)) st in
          let recentTxns := select_backlog (sql_thirty_days_ago clock) (db st) in
          fold_left (fun st txn => enrich_one env clock token medians txn st)
            recentTxns st
      end
  | _, _ => st
  end.

(** The keys and months of the transactions and the sync state are the
    same in two stores. *)
Definition same_ledger (a b : Store) : Prop :=
  map natural_key (hdb_transactions (db a))
  = map natural_key (hdb_transactions (db b)) /\
  map month (hdb_transactions (db a)) = map month (hdb_transactions (db b)) /\
  sync_metadata (db a) = sync_metadata (db b).

(** ** The handler *)

Inductive Body : Type :=
| Unauthorized
| DatabaseNotConfigured
| SyncSucceeded (records_fetched records_inserted : Z)
| SyncFailed (details : string).

Record Response : Type := mkResponse {
  http_status : Z;
  body : Body
}.

(** The part of the handler inside [try]/[catch], on a bound database.
    [None] only when the loop runs out of fuel. *)
Definition sync (clock : Clock) (source : Source) (env : Enrichment)
    (st : Store) : option (Response * Store) :=
  let st := exec (UpdateSyncRunning (now_iso clock)) st in
  let st := exec SelectMaxMonth st in
  let lastDbMonth := select_max_month (db st) in
  let filterDate := watermark lastDbMonth (six_months_ago clock) in
  match fetchAll source filterDate with
  | None => None
  | Some (Threw error) =>
      let st := exec (UpdateSyncFailed error) st in
      Some (mkResponse 500 (SyncFailed error), st)
  | Some (Stopped _ allRecords) =>
      let '(st, insertedCount) :=
        if (0 <? length allRecords)%nat then insertRecords allRecords st
        else (st, 0%Z) in
      let st := updateStatistics clock st in
      let st := populateUnitScores env clock st in
      let st := exec (UpdateSyncCompleted insertedCount) st in
      Some (mkResponse 200
              (SyncSucceeded (Z.of_nat (length allRecords)) insertedCount),
            st)
  end.

(** [GET]: the database binding of the runtime is [None] when it is not
    configured. *)
Definition GET (request : Request) (DB : option Database) (clock : Clock)
    (source : Source) (env : Enrichment)
    : option (Response * option Database * list Stmt) :=
  if negb (isCron request) && negb (secret_matches request)
  then Some (mkResponse 401 Unauthorized, DB, [])
  else
    match DB with
    | None => Some (mkResponse 500 DatabaseNotConfigured, None, [])
    | Some d =>
        match sync clock source env (mkStore d []) with
        | Some (response, st) => Some (response, Some (db st), trace st)
        | None => None
        end
    end.

End Cron.

(* ================================================================== *)
(** * pages/api/comparison.ts: the per-month median query *)
(* ================================================================== *)

Module Comparison.
Local Open Scope Z_scope.

Fixpoint insert_sorted (x : Z) (sorted : list Z) : list Z :=
  match sorted with
  | [] => [x]
  | y :: rest => if x <=? y then x :: sorted else y :: insert_sorted x rest
  end.

(** [ORDER BY resale_price]. *)
Definition order_by_price (prices : list Z) : list Z :=
  fold_right insert_sorted [] prices.

(** [SELECT resale_price ... ORDER BY resale_price LIMIT 1 OFFSET offset]
    with [offset = Math.floor(count / 2)], then [|| row.avg_price]. *)
Definition median_price (prices : list Z) (transaction_count : Z)
    (avg_price : Z) : Z :=
  let offset := transaction_count / 2 in
  match nth_error (order_by_price prices) (Z.to_nat offset) with
  | Some price => if price =? 0 then avg_price else price
  | None => avg_price
  end.

End Comparison.

(* ================================================================== *)
(** * The median of the specification *)
(* ================================================================== *)

Module Spec.

(** The median as the specification words it: sort the prices of the group
    and take the middle value, or the average of the two central values when
    the count is even.  [None] for an empty group. *)
Definition rank_median (prices : list Z) : option Q :=
  let sorted := Comparison.order_by_price prices in
  let n := length sorted in
  match n with
  | O => None
  | _ =>
      if Nat.odd n
      then Some (inject_Z (nth (n / 2) sorted 0%Z))
      else Some ((inject_Z (nth (n / 2 - 1) sorted 0%Z)
                  + inject_Z (nth (n / 2) sorted 0%Z)) / 2)
  end.

End Spec.

(* ================================================================== *)
(** * Sample data for the worked examples *)
(* ================================================================== *)

Module Samples.
Import Schema.

Definition sample_clock : Clock :=
  {| now_iso := "2026-11-02T02:00:00.000Z";
     six_months_ago := "2026-05";
     sql_six_months_ago := "2026-05-02";
     sql_thirty_days_ago := "2026-10-03";
     current_timestamp := "2026-11-02 02:00:00" |}.

(** A record of the feed for a 4-room flat in Bedok. *)
Definition sample_record (month price : string) : Upstream.HDBRecord :=
  {| Upstream.month := month;
     Upstream.town := "BEDOK";
     Upstream.flat_type := "4 ROOM";
     Upstream.block := "123";
     Upstream.street_name := "BEDOK NTH ST 2";
     Upstream.storey_range := "04 TO 06";
     Upstream.floor_area_sqm := "92";
     Upstream.flat_model := "New Generation";
     Upstream.lease_commence_date := "1979";
     Upstream.remaining_lease := "52 years 03 months";
     Upstream.resale_price := price |}.

(** The same flat as a stored transaction. *)
Definition sample_transaction (month : string) (price : Z) : Transaction :=
  {| transaction_date := month ++ "-01";
     Schema.month := month;
     town := "BEDOK";
     flat_type := "4 ROOM";
     block := "123";
     street_name := "BEDOK NTH ST 2";
     storey_range := "04 TO 06";
     flat_model := "New Generation";
     lease_commence_date := Some 1979%Z;
     remaining_lease := "52 years 03 months";
     remaining_lease_years := Some 52%Z;
     resale_price := Some price;
     latitude := None;
     longitude := None |}.

Definition database_of (transactions : list Transaction) : Database :=
  mkDatabase transactions [] [] initial_sync_metadata.

(** A worker without the credentials of the enrichment provider. *)
Definition no_enrichment : Cron.Enrichment :=
  {| Cron.ONEMAP_EMAIL := None;
     Cron.ONEMAP_PASSWORD := None;
     Cron.getOneMapToken := fun _ _ => None;
     Cron.getCoordinates := fun _ _ => None;
     Cron.getNearestMRT := fun _ _ _ => None;
     Cron.themes := fun _ _ _ => Themes.Rejected |}.

Definition cron_request : Cron.Request :=
  {| Cron.cf_cron := Some "true"%string; Cron.secret := None |}.

Definition anonymous_request : Cron.Request :=
  {| Cron.cf_cron := None; Cron.secret := Some "guess"%string |}.

(** A full page of 1000 copies of one record. *)
Definition full_page (month price : string) : list Upstream.HDBRecord :=
  repeat (sample_record month price) 1000.

(** Two full pages of relevant records, then 429 on every later page. *)
Definition rate_limited_source : Upstream.Source :=
  fun offset =>
    if (offset =? 0)%Z then Upstream.Json true (full_page "2026-10" "500000")
    else if (offset =? 1000)%Z
    then Upstream.Json true (full_page "2026-09" "480000")
    else Upstream.HttpError 429 "Too Many Requests".

(** A feed of three sales, the last one older than the default watermark. *)
Definition small_source : Upstream.Source :=
  fun _ =>
    Upstream.Json true
      [sample_record "2026-10" "500000";
       sample_record "2026-09" "480000";
       sample_record "2026-04" "450000"].

(** A first run of the sync on the empty database. *)
Definition first_run
    : option (Cron.Response * option Database * list Cron.Stmt) :=
  Cron.GET cron_request (Some empty_database) sample_clock small_source
    no_enrichment.

Definition after_first_run : Database :=
  match first_run with
  | Some (_, Some d, _) => d
  | _ => empty_database
  end.

Definition first_run_trace : list Cron.Stmt :=
  match first_run with
  | Some (_, _, statements) => statements
  | None => []
  end.

End Samples.

(* ================================================================== *)
(** * lib/scoring.ts: labels and colours *)
(* ================================================================== *)

Module ScoreLabels.
Import JS.
Local Open Scope js_scope.

Definition getScoreLabel (score : number) : string :=
  if score >=? #80 then "Excellent Value"
  else if score >=? #65 then "Good Value"
  else if score >=? #50 then "Fair Value"
  else if score >=? #35 then "Below Average"
  else "Poor Value".

Definition getScoreColor (score : number) : string :=
  if score >=? #80 then "#22c55e"
  else if score >=? #65 then "#84cc16"
  else if score >=? #50 then "#eab308"
  else if score >=? #35 then "#f97316"
  else "#ef4444".

End ScoreLabels.

(* ================================================================== *)
(** * lib/db.ts: price per square metre and moving average *)
(* ================================================================== *)

Module DbNumbers.
Import JS.
Local Open Scope js_scope.


(** An index of [Array.prototype.slice] brought into [0, len]: a negative
    index counts from the end. *)
Definition clamp_index (len k : Z) : Z :=
  if (k <? 0)%Z then Z.max (len + k) 0 else Z.min k len.

(** [array.slice(start, stop)]. *)
Definition js_slice {A : Type} (start stop : Z) (array : list A) : list A :=
  let len := Z.of_nat (length array) in
  let from := clamp_index len start in
  let to := clamp_index len stop in
  firstn (Z.to_nat (to - from)) (skipn (Z.to_nat from) array).

(** The elements of an array with their indices. *)
Definition indexed {A : Type} (array : list A) : list (Z * A) :=
  combine (map Z.of_nat (seq 0 (length array))) array.

Section MovingAverage.

Variable T : Type.
Variable median_price : T -> number.

(** [calculateMovingAverage(data, window)]: each item with its
    [moving_average], [None] for null. *)
Definition calculateMovingAverage (data : list T) (window : Z)
    : list (T * option number) :=
  map (fun '(idx, item) =>
         if (idx <? window - 1)%Z then (item, None)
         else
           let slice := js_slice (idx - window + 1) (idx + 1) data in
           let avg :=
             fold_left (fun sum d => sum + median_price d) slice #0
             / of_Z window in
           (item, Some (Math_round avg)))
      (indexed data).

End MovingAverage.

End DbNumbers.

(* ================================================================== *)
(** * lib/cache.ts: cache keys *)
(* ================================================================== *)

Module Cache.
Local Open Scope string_scope.

Definition CACHE_VERSION : string := "v1".

Definition getComparisonCacheKey (town flatType range : string) : string :=
  CACHE_VERSION ++ ":comparison:" ++ town ++ ":" ++ flatType ++ ":" ++ range.

Definition getTrendsCacheKey (town flatType range : string) : string :=
  CACHE_VERSION ++ ":trends:" ++ town ++ ":" ++ flatType ++ ":" ++ range.

Definition getGeocodeCacheKey (block street : string) : string :=
  "geocode:" ++ block ++ ":" ++ street.

Definition getScoreCacheKey (block street : string) : string :=
  CACHE_VERSION ++ ":score:" ++ block ++ ":" ++ street.

(** ** [String.prototype.replace] with a string pattern *)

(** The text before and after the first occurrence of [pattern]. *)
Fixpoint split_first (pattern s : string) : option (string * string) :=
  if String.prefix pattern s
  then Some ("", String.substring (String.length pattern)
                   (String.length s - String.length pattern) s)
  else
    match s with
    | String c rest =>
        match split_first pattern rest with
        | Some (before, after) => Some (String c before, after)
        | None => None
        end
    | EmptyString => None
    end.

(** GetSubstitution for a pattern without captures: [$$], [$&], [$`] and
    [$'] are expanded, every other character stands for itself. *)
Fixpoint substitute (matched before after replacement : string) : string :=
  match replacement with
  | String c tail =>
      if Ascii.eqb c "$" then
        match tail with
        | String d rest =>
            if Ascii.eqb d "$" then
              "$" ++ substitute matched before after rest
            else if Ascii.eqb d "&" then
              matched ++ substitute matched before after rest
            else if Ascii.eqb d "`" then
              before ++ substitute matched before after rest
            else if Ascii.eqb d "'" then
              after ++ substitute matched before after rest
            else String c (substitute matched before after tail)
        | EmptyString => String c EmptyString
        end
      else String c (substitute matched before after tail)
  | EmptyString => EmptyString
  end.

(** [s.replace(pattern, replacement)]: the first occurrence only. *)
Definition js_replace (pattern replacement s : string) : string :=
  match split_first pattern s with
  | Some (before, after) =>
      before ++ substitute pattern before after replacement ++ after
  | None => s
  end.

(** [x || ''] for a query parameter. *)
Definition or_empty (x : option string) : string :=
  match x with
  | Some s => s
  | None => ""
  end.

(** The cache key of the comparison endpoint: the filters are put in
    place of the version tag. *)
Definition comparison_cache_key (town flatType range : string)
    (storey minArea maxArea minLease : option string) : string :=
  let filterKey :=
    or_empty storey ++ "-" ++ or_empty minArea ++ "-" ++ or_empty maxArea
    ++ "-" ++ or_empty minLease in
  js_replace "v1" ("v4-" ++ filterKey)
    (getComparisonCacheKey town flatType range).

End Cache.

(* ================================================================== *)
(** * pages/api/comparison.ts: month-over-month and year-over-year *)
(* ================================================================== *)

Module ComparisonTrends.
Import JS.
Local Open Scope js_scope.

(** [Math.round(((current - previous) / previous * 100) * 10) / 10]. *)
Definition change_pct (current previous : number) : number :=
  Math_round (((current - previous) / previous * #100) * #10) / #10.

Section Trends.

Variable T : Type.
Variable median_price : T -> number.

(** [dataWithMedian.map((item, index, array) => ...)]: each item with its
    [mom_pct] and [yoy_pct], [None] for undefined.  The rows are in
    descending order of month, so the previous month is the next row. *)
Definition dataWithTrends (array : list T)
    : list (T * option number * option number) :=
  let len := Z.of_nat (length array) in
  map (fun '(index, item) =>
         let mom_pct :=
           if (index <? len - 1)%Z then
             match nth_error array (Z.to_nat (index + 1)) with
             | Some prev =>
                 Some (change_pct (median_price item) (median_price prev))
             | None => None
             end
           else None in
         let yoyIndex := (index + 12)%Z in
         let yoy_pct :=
           if (yoyIndex <? len)%Z then
             match nth_error array (Z.to_nat yoyIndex) with
             | Some yearAgo =>
                 Some (change_pct (median_price item) (median_price yearAgo))
             | None => None
             end
           else None in
         (item, mom_pct, yoy_pct))
      (DbNumbers.indexed array).

End Trends.

End ComparisonTrends.

(* ================================================================== *)
(** * pages/api/enrich.ts: the enrichment trigger *)
(* ================================================================== *)

Module Enrich.
Import JS Schema Sql Cron.

(** The backlog query of [cron.ts] with the row limit as a parameter. *)
Definition select_backlog_limit (row_limit : nat) (cutoff : string)
    (d : Database) : list Transaction :=
  let same_address (t u : Transaction) :=
    String.eqb (block t) (block u) &&
    String.eqb (street_name t) (street_name u) in
  let is_latest (t : Transaction) :=
    match sql_max_text
            (map transaction_date (filter (same_address t) (hdb_transactions d)))
    with
    | Some max_date => String.eqb (transaction_date t) max_date
    | None => false
    end in
  let scores_of (t : Transaction) :=
    filter (fun s => String.eqb (block t) (us_block s) &&
                     String.eqb (street_name t) (us_street_name s))
           (unit_scores d) in
  firstn row_limit
    (flat_map
       (fun t =>
          if is_latest t then
            match scores_of t with
            | [] => [t]
            | joined =>
                flat_map
                  (fun s =>
                     if sql_is_null (Scoring.total_score (us_score s)) ||
                        (calculated_at s <? cutoff)%string
                     then [t] else [])
                  joined
            end
          else [])
       (hdb_transactions d)).

(** An entry of [details] in the answer. *)
Record Detail : Type := mkDetail {
  address : string;
  score : number;
  mrt : option string
}.

Inductive Body : Type :=
| Unauthorized
| NoDB
| CredentialsMissing
| TokenFailed
| Enriched (processed : Z) (details : list Detail).

Record Response : Type := mkResponse {
  http_status : Z;
  body : Body
}.

(** The body of the enrichment loop for one transaction: the store and the
    [details] after it. *)
Definition enrich_block (env : Enrichment) (clock : Clock) (token : string)
    (medians : list PriceStatistics) (txn : Transaction)
    (acc : Store * list Detail) : Store * list Detail :=
  let '(st, results) := acc in
  match getCoordinates env (block txn) (street_name txn) with
  | None => (st, results)
  | Some coords =>
      let lat := c_latitude coords in
      let lon := c_longitude coords in
      let mrt := getNearestMRT env lat lon token in
      let near := OneMap.getNearbyAmenities (themes env) lat lon in
      let schools := near Themes.preschools token in
      let malls := near Themes.shopping_malls token in
      let parks := near Themes.national_parks token in
      let hawkers := near Themes.hawkercentre token in
      let townMedian :=
        match medianMap_get medians (town txn ++ ":" ++ flat_type txn) with
        | Some median => or_default median 0
        | None => 0%Z
        end in
      let unitData :=
        {| Scoring.resale_price := number_of_column (resale_price txn);
           Scoring.town_median := of_Z townMedian;
           Scoring.mrt_distance :=
             match mrt with Some m => distance m | None => of_Z 1500 end;
           Scoring.remaining_lease_years :=
             of_Z (or_default (remaining_lease_years txn) 95);
           Scoring.price_history := Some [];
           Scoring.amenities :=
             Some (Scoring.mkAmenities schools malls parks hawkers) |} in
      let score := Scoring.calculateTotalScore unitData Scoring.DEFAULT_WEIGHTS in
      let st :=
        exec (InsertOrReplaceUnitScore
                {| us_block := block txn;
                   us_street_name := street_name txn;
                   us_town := town txn;
                   us_flat_type := flat_type txn;
                   us_score := score;
                   us_mrt_distance := Scoring.mrt_distance unitData;
                   us_nearest_mrt :=
                     match mrt with
                     | Some m => mrt_name m
                     | None => "None nearby"
                     end;
                   nearby_schools := schools;
                   nearby_malls := malls;
                   nearby_parks := parks;
                   calculated_at := current_timestamp clock |})
             st in
      let st :=
        exec (UpdateCoordinates lat lon (block txn) (street_name txn)) st in
      (st,
       results ++
       [ {| address := (block txn ++ " " ++ street_name txn)%string;
            score := Scoring.total_score score;
            mrt := option_map mrt_name mrt |} ])
  end.

(** [GET] of the enrichment trigger: the answer, the database and the
    statements executed. *)
Definition GET (request : Request) (DB : option Database) (clock : Clock)
    (env : Enrichment) : Response * option Database * list Stmt :=
  if negb (isCron request) && negb (secret_matches request)
  then (mkResponse 401 Unauthorized, DB, [])
  else
    match DB with
    | None => (mkResponse 500 NoDB, None, [])
    | Some d =>
        match truthy (ONEMAP_EMAIL env), truthy (ONEMAP_PASSWORD env) with
        | Some email, Some password =>
            match truthy (getOneMapToken env email password) with
            | None => (mkResponse 500 TokenFailed, Some d, [])
            | Some token =>
                let st := exec SelectLatestMedians (mkStore d []) in
                let medians := select_latest_medians (db st) in
                let st := exec (SelectBacklog (sql_thirty_days_ago clock)) st in
                let recentTxns :=
                  select_backlog_limit 5 (sql_thirty_days_ago clock) (db st) in
                let '(st, results) :=
                  fold_left
                    (fun acc txn => enrich_block env clock token medians txn acc)
                    recentTxns (st, []) in
                (mkResponse 200 (Enriched (Z.of_nat (length results)) results),
                 Some (db st), trace st)
            end
        | _, _ => (mkResponse 500 CredentialsMissing, Some d, [])
        end
    end.

End Enrich.

(* ================================================================== *)
(** * pages/api/sync-status.ts: the status read *)
(* ================================================================== *)

Module SyncStatusEndpoint.
Import Schema.

Inductive Body : Type :=
| DatabaseNotConfigured
| NotFound
| Found (last_sync_at : option string) (status : SyncStatus)
        (records_processed : Z) (error_message : option string).

Record Response : Type := mkResponse {
  http_status : Z;
  body : Body
}.

(** [SELECT last_sync_at, status, records_processed, error_message
     FROM sync_metadata WHERE sync_type = 'hdb_data'], first row. *)
Definition select_status (d : Database) : option SyncMetadata :=
  find (fun r => String.eqb (sync_type r) "hdb_data") (sync_metadata d).

Definition GET (DB : option Database) : Response :=
  match DB with
  | None => mkResponse 500 DatabaseNotConfigured
  | Some d =>
      match select_status d with
      | None => mkResponse 404 NotFound
      | Some r =>
          mkResponse 200
            (Found (Schema.last_sync_at r) (Schema.status r)
               (Schema.records_processed r) (Schema.error_message r))
      end
  end.

End SyncStatusEndpoint.

(* ================================================================== *)
(** * Auxiliary definitions for the properties of the library *)
(* ================================================================== *)

Module Aux.
Import JS.

(** [reduce_xy] on rationals. *)
Fixpoint reduce_xy_Q (x : Z) (sum : Q) (ys : list Q) : Q :=
  match ys with
  | [] => sum
  | y :: rest => reduce_xy_Q (x + 1) (sum + inject_Z x * y) rest
  end.




(** 1 when a count is positive, else 0. *)
Definition present_Z (count : number) : Z :=
  if JS.gt count (Fin 0) then 1%Z else 0%Z.

(** No character of the string is [c]. *)
Fixpoint lacks (c : ascii) (s : string) : bool :=
  match s with
  | String d rest => negb (Ascii.eqb d c) && lacks c rest
  | EmptyString => true
  end.

(** Every character of the string satisfies [p]. *)
Fixpoint all_chars (p : ascii -> bool) (s : string) : bool :=
  match s with
  | String d rest => p d && all_chars p rest
  | EmptyString => true
  end.

End Aux.

(* ================================================================== *)
(** * More sample data *)
(* ================================================================== *)

Module MoreSamples.
Import JS Schema Samples.

(** A full page of relevant records, then the upstream is unavailable. *)
Definition failing_source : Upstream.Source :=
  fun offset =>
    if (offset =? 0)%Z then Upstream.Json true (full_page "2026-10" "500000")
    else Upstream.HttpError 503 "Service Unavailable".



End MoreSamples.

(* ================================================================== *)
(** * Facts about JavaScript numbers *)
(* ================================================================== *)

Module JSFacts.
Import JS.
Local Open Scope Q_scope.

Lemma Qle_bool_false (a b : Q) : Qle_bool a b = false <-> b < a.
Proof.
  destruct (Qle_bool a b) eqn:E; split; intros H; try discriminate.
  - apply Qle_bool_iff in E. lra.
  - apply Qnot_le_lt. intros Hle. apply Qle_bool_iff in Hle. congruence.
  - reflexivity.
Qed.

Lemma Qfloor_between (q : Q) (lo hi : Z) :
  inject_Z lo <= q -> q < inject_Z (hi + 1) -> (lo <= Qfloor q <= hi)%Z.
Proof.
  intros Hlo Hhi. split.
  - rewrite <- (Qfloor_Z lo). now apply Qfloor_resp_le.
  - assert (H : inject_Z (Qfloor q) < inject_Z (hi + 1))
      by (eapply Qle_lt_trans; [apply Qfloor_le | exact Hhi]).
    rewrite <- Zlt_Qlt in H. lia.
Qed.

(** [Math.round] of a finite number is an integer within half a unit. *)
Lemma round_between (q : Q) (lo hi : Z) :
  inject_Z lo - 0.5 <= q -> q < inject_Z hi + 0.5 ->
  exists s : Z, Math_round (Fin q) = of_Z s /\ (lo <= s <= hi)%Z.
Proof.
  intros Hlo Hhi. exists (Qfloor (q + 0.5)). split; [reflexivity|].
  apply Qfloor_between.
  - lra.
  - rewrite inject_Z_plus. change (inject_Z 1) with 1. lra.
Qed.


End JSFacts.

(* ================================================================== *)
(** * The scoring engine *)
(* ================================================================== *)

Module ScoringFacts.
Import JS Scoring JSFacts.
Local Open Scope Q_scope.

(** The score of a finite price against a positive finite median. *)
Lemma price_score_ratio (p m : Q) :
  0 < m ->
  calculatePriceScore (Fin p) (Fin m) =
    if Qle_bool (p / m) 0.70 then Fin 100
    else if Qle_bool 1.50 (p / m) then Fin 0
    else Math_round (Fin (100 + - ((p / m + - 0.70) * 125))).
Proof.
  intros Hm. unfold calculatePriceScore, calculatePriceScore_with.
  cbn [le ge div].
  assert (Hle : Qle_bool m 0 = false) by (apply Qle_bool_false; exact Hm).
  assert (Heq : Qeq_bool m 0 = false).
  { destruct (Qeq_bool m 0) eqn:E; [|reflexivity].
    apply Qeq_bool_iff in E. lra. }
  rewrite Hle, Heq. reflexivity.
Qed.




(** On finite arguments the price score is an integer of [0,100]. *)
Lemma price_score_bounds (p m : Q) :
  exists s : Z,
    calculatePriceScore (Fin p) (Fin m) = of_Z s /\ (0 <= s <= 100)%Z.
Proof.
  destruct (Qle_bool m 0) eqn:E.
  - exists 50%Z. split; [|lia].
    unfold calculatePriceScore, calculatePriceScore_with. cbn [JS.le].
    now rewrite E.
  - apply Qle_bool_false in E. rewrite (price_score_ratio p E).
    destruct (Qle_bool (p / m) 0.70) eqn:E1;
      [exists 100%Z; split; [reflexivity|lia]|].
    destruct (Qle_bool 1.50 (p / m)) eqn:E2;
      [exists 0%Z; split; [reflexivity|lia]|].
    apply Qle_bool_false in E1, E2.
    apply round_between; change (inject_Z 0) with 0;
      change (inject_Z 100) with 100; lra.
Qed.

(** C10.  The guard in front of the division: when the town median is zero
    or negative the score is the neutral 50 whatever the division operator
    would do, the operator is only ever consulted on a divisor that is not
    [<= 0], and on finite arguments the score is an integer of [0,100]. *)
Theorem price_score_guarded :
  (forall (divide : number -> number -> number) (unitPrice townMedian : number),
     JS.le townMedian (Fin 0) = true ->
     calculatePriceScore_with divide unitPrice townMedian = Fin 50 /\
     calculatePriceScore unitPrice townMedian = Fin 50) /\
  (forall divide : number -> number -> number,
     (forall x y, JS.le y (Fin 0) = false -> divide x y = JS.div x y) ->
     forall unitPrice townMedian,
       calculatePriceScore_with divide unitPrice townMedian =
       calculatePriceScore unitPrice townMedian) /\
  (forall p m : Q, exists s : Z,
     calculatePriceScore (Fin p) (Fin m) = of_Z s /\ (0 <= s <= 100)%Z).
Proof.
  split; [|split].
  - intros divide unitPrice townMedian H.
    unfold calculatePriceScore, calculatePriceScore_with. now rewrite H.
  - intros divide Hdiv unitPrice townMedian.
    unfold calculatePriceScore, calculatePriceScore_with.
    destruct (JS.le townMedian (Fin 0)) eqn:E; [reflexivity|].
    now rewrite (Hdiv unitPrice townMedian E).
  - exact price_score_bounds.
Qed.

(** The guard at a median of zero, with a division that would yield NaN. *)
Lemma price_score_guarded_witness :
  JS.le (Fin 0) (Fin 0) = true /\
  calculatePriceScore_with (fun _ _ => NaN) (Fin 450000) (Fin 0) = Fin 50 /\
  calculatePriceScore (Fin 450000) (Fin 0) = Fin 50.
Proof.
  split; [reflexivity|].
  apply (proj1 price_score_guarded). reflexivity.
Defined.

(** ** Bounds of the other sub-scores *)




(** ** The appreciation score *)

Lemma div_Fin (a b : Q) : ~ b == 0 -> JS.div (Fin a) (Fin b) = Fin (a / b).
Proof.
  intros Hb. cbn [JS.div].
  destruct (Qeq_bool b 0) eqn:E; [|reflexivity].
  apply Qeq_bool_iff in E. contradiction.
Qed.

(** One step of arithmetic on finite numbers. *)
Ltac fin_step :=
  match goal with
  | |- context [JS.neg (Fin ?a)] =>
      change (JS.neg (Fin a)) with (Fin (- a))
  | |- context [JS.mul (Fin ?a) (Fin ?b)] =>
      change (JS.mul (Fin a) (Fin b)) with (Fin (a * b))
  | |- context [JS.add (Fin ?a) (Fin ?b)] =>
      change (JS.add (Fin a) (Fin b)) with (Fin (a + b))
  | |- context [JS.sub (Fin ?a) (Fin ?b)] =>
      change (JS.sub (Fin a) (Fin b)) with (Fin (a + - b))
  | |- context [JS.div (Fin ?a) (Fin ?b)] =>
      rewrite (div_Fin a (b := b)) by lra
  end.

Lemma fold_add_Fin (qs : list Q) (a : Q) :
  fold_left (fun x y => JS.add x y) (map Fin qs) (Fin a) =
  Fin (fold_left Qplus qs a).
Proof.
  revert a. induction qs as [|q qs IH]; intros a; [reflexivity|].
  cbn [map fold_left JS.add]. apply IH.
Qed.




(** The denominator of the regression slope is positive from two points
    on. *)
Lemma regression_denominator_positive (n : Q) :
  2 <= n ->
  0 < n * (n * (n + - (1)) * (2 * n + - (1)) / 6)
      + - (n * (n + - (1)) / 2 * (n * (n + - (1)) / 2)).
Proof.
  intros Hn.
  assert (E : n * (n * (n + - (1)) * (2 * n + - (1)) / 6)
              + - (n * (n + - (1)) / 2 * (n * (n + - (1)) / 2))
              == (n * n) * ((n - 1) * (n + 1)) / 12) by field.
  rewrite E.
  apply Qlt_shift_div_l; [lra|].
  assert (H1 : 0 < n * n) by (apply Qmult_lt_0_compat; lra).
  assert (H2 : 0 < (n - 1) * (n + 1)) by (apply Qmult_lt_0_compat; lra).
  pose proof (Qmult_lt_0_compat _ _ H1 H2). lra.
Qed.


(** ** The composite score *)




End ScoringFacts.

(* ================================================================== *)
(** * The amenity count *)
(* ================================================================== *)

Module OneMapFacts.
Import JS Themes.

(** The current client returns a count: an integer that is never negative,
    and zero when the request fails (a 404 included), when [SrchResults] is
    absent or not an array, and when it holds the metadata row only. *)
Theorem getNearbyAmenities_count (provider : Provider)
    (latitude longitude : number) (theme : AmenityTheme) (token : string) :
  (exists n : Z,
     OneMap.getNearbyAmenities provider latitude longitude theme token = of_Z n
     /\ (0 <= n)%Z) /\
  (forall response,
     provider
       (match OneMap.themeMapping theme with
        | Some mapped => mapped
        | None => theme_name theme
        end) (extents_of latitude longitude) token = response ->
     match response with
     | Rejected | NotOk _ | Ok Missing | Ok (TruthyNonArray _)
     | Ok (ArrayOf []) | Ok (ArrayOf [_]) =>
         OneMap.getNearbyAmenities provider latitude longitude theme token
         = of_Z 0
     | Ok (ArrayOf (_ :: features)) =>
         OneMap.getNearbyAmenities provider latitude longitude theme token
         = of_Z (Z.of_nat (length features))
     end).
Proof.
  unfold OneMap.getNearbyAmenities. split.
  - destruct (provider _ _ _) as [|status|[|len|items]];
      try (exists 0%Z; split; [reflexivity|lia]).
    + exists 0%Z. split; [now destruct (status =? 404)%Z|lia].
    + destruct (1 <? Z.of_nat (length items))%Z eqn:E.
      * exists (Z.of_nat (length items) - 1)%Z. split; [reflexivity|lia].
      * exists 0%Z. split; [reflexivity|lia].
  - intros response <-.
    match goal with
    | |- context [provider ?q ?e ?t] =>
        destruct (provider q e t) as [|status|[|len|[|meta [|f features]]]]
    end; try reflexivity.
    + now destruct (status =? 404)%Z.
    + cbn [length].
      replace (1 <? Z.of_nat (S (S (length features))))%Z with true
        by (symmetry; apply Z.ltb_lt; lia).
      f_equal. lia.
Qed.

(** C9 fails on the older client: when the provider answers with an empty
    [SrchResults] array, which is truthy, the count returned is -1, where
    the current client returns 0. *)
Theorem legacy_getNearbyAmenities_negative
    (latitude longitude : number) (theme : AmenityTheme) (token : string) :
  let provider : Provider := fun _ _ _ => Ok (ArrayOf []) in
  OneMapLegacy.getNearbyAmenities provider latitude longitude theme token
    = of_Z (-1) /\
  OneMap.getNearbyAmenities provider latitude longitude theme token = of_Z 0.
Proof. split; reflexivity. Qed.

End OneMapFacts.

(* ================================================================== *)
(** * The statistics recomputation *)
(* ================================================================== *)

Module StatisticsFacts.
Import Schema Sql Samples.

(** Whatever the group, the column [median_price] receives the same value
    as [avg_price]: the rounded mean. *)
Lemma median_column_is_mean (now : string) (g : GroupKey)
    (rows : list Transaction) :
  median_price (aggregate_group now g rows)
  = avg_price (aggregate_group now g rows)
  /\ median_price (aggregate_group now g rows)
     = option_map sql_round (sql_avg (map resale_price rows)).
Proof. destruct g as [[t f] m]. split; reflexivity. Qed.

(** C1 fails on the code.  For a group with the prices 100, 200 and 900 the
    recomputation stores 400, the rounded mean, where the median by rank
    selection is 200.  On the two lists of the claim the mean happens to
    equal the median (250 and 200).  The median query of the comparison
    endpoint selects by rank, but takes the upper of the two central values
    of an even count: 300 for 100, 200, 300, 400. *)
Theorem stored_median_is_rounded_mean :
  let stored prices :=
    map median_price
      (price_statistics
         (Cron.db (Cron.updateStatistics sample_clock
            (Cron.mkStore
               (database_of (map (sample_transaction "2026-10") prices))
               [])))) in
  (stored [100; 200; 900]%Z = [Some 400%Z] /\
   Spec.rank_median [100; 200; 900]%Z = Some (inject_Z 200)) /\
  (stored [100; 200; 300; 400]%Z = [Some 250%Z] /\
   stored [100; 200; 300]%Z = [Some 200%Z]) /\
  (Comparison.median_price [100; 200; 300; 400]%Z 4 250 = 300%Z /\
   Comparison.median_price [100; 200; 900]%Z 3 400 = 200%Z).
Proof. vm_compute. repeat split; reflexivity. Qed.

End StatisticsFacts.

(* ================================================================== *)
(** * The order on strings *)
(* ================================================================== *)

Module StringOrder.
Local Open Scope string_scope.

Lemma ltb_lt (a b : string) : (a <? b) = true <-> String_as_OT.lt a b.
Proof.
  unfold String.ltb, String_as_OT.lt.
  change (String_as_OT.compare a b) with (String.compare a b).
  destruct (String.compare a b); split; intros H; congruence.
Qed.

Lemma leb_le (a b : string) :
  (a <=? b) = true <-> a = b \/ String_as_OT.lt a b.
Proof.
  unfold String.leb.
  change (String.compare a b) with (String_as_OT.compare a b).
  destruct (String_as_OT.compare_spec a b) as [E|L|G]; split; intros H;
    try discriminate; auto.
  exfalso. destruct H as [->|L].
  - exact (StrictOrder_Irreflexive _ G).
  - exact (StrictOrder_Irreflexive _ (StrictOrder_Transitive _ _ _ L G)).
Qed.

Lemma leb_refl (a : string) : (a <=? a) = true.
Proof. apply leb_le. now left. Qed.

Lemma leb_trans (a b c : string) :
  (a <=? b) = true -> (b <=? c) = true -> (a <=? c) = true.
Proof.
  rewrite !leb_le. intros [->|H1] [->|H2]; auto.
  right. exact (StrictOrder_Transitive _ _ _ H1 H2).
Qed.

(** [a < b] is the negation of [b <= a]. *)
Lemma ltb_negb_leb (a b : string) : (a <? b) = negb (b <=? a).
Proof.
  unfold String.ltb, String.leb. rewrite (String.compare_antisym a b).
  now destruct (String.compare b a).
Qed.


Lemma ltb_leb (a b : string) : (a <? b) = true -> (a <=? b) = true.
Proof. rewrite ltb_lt, leb_le. auto. Qed.

Lemma leb_of_not_ltb (a b : string) : (a <? b) = false -> (b <=? a) = true.
Proof. rewrite ltb_negb_leb. now destruct (b <=? a). Qed.

(** Nothing is below the empty string. *)
Lemma ltb_empty (a : string) : (a <? "") = false.
Proof. now destruct a. Qed.

End StringOrder.

(* ================================================================== *)
(** * The sync trigger: authorization and watermark *)
(* ================================================================== *)

Module TriggerFacts.
Import Schema Sql Cron StringOrder Samples.
Local Open Scope string_scope.

Lemma string_max_upper (a b : string) :
  (a <=? string_max a b) = true /\ (b <=? string_max a b) = true /\
  (string_max a b = a \/ string_max a b = b).
Proof.
  unfold string_max. destruct (a <? b) eqn:E.
  - repeat split; auto using ltb_leb, leb_refl.
  - repeat split; auto using leb_of_not_ltb, leb_refl.
Qed.

(** [MAX] is NULL on no value and otherwise one of the values, above all
    of them. *)
Lemma sql_max_text_acc (values : list string) (acc : option string) :
  match
    fold_left
      (fun acc v =>
         match acc with
         | None => Some v
         | Some m => Some (string_max m v)
         end) values acc
  with
  | Some m =>
      (acc = Some m \/ In m values) /\
      (forall v, In v values -> (v <=? m) = true) /\
      (forall a, acc = Some a -> (a <=? m) = true)
  | None => acc = None /\ values = []
  end.
Proof.
  revert acc. induction values as [|v values IH]; intros acc.
  - cbn. destruct acc as [a|]; [|auto].
    split; [now left|]. split; [intros v []|].
    intros a' [= ->]. apply leb_refl.
  - cbn [fold_left].
    match goal with
    | |- match fold_left ?f values ?acc' with _ => _ end =>
        specialize (IH acc'); destruct (fold_left f values acc') as [m|]
    end.
    + destruct IH as (Hin & Hall & Hacc).
      destruct acc as [a|].
      * destruct (string_max_upper a v) as (Ha & Hv & Hmax).
        pose proof (Hacc _ eq_refl) as Hm.
        repeat split.
        -- destruct Hin as [[= <-]|Hin]; [|right; now right].
           destruct Hmax as [->| ->]; [now left|right; now left].
        -- intros x [<-|Hx]; [eauto using leb_trans|auto].
        -- intros a' [= <-]. eauto using leb_trans.
      * repeat split.
        -- destruct Hin as [[= <-]|Hin]; right; [now left|now right].
        -- intros x [<-|Hx]; auto.
        -- discriminate.
    + destruct IH as [IH _]. now destruct acc.
Qed.

Lemma sql_max_text_spec (values : list string) :
  match sql_max_text values with
  | Some m => In m values /\ forall v, In v values -> (v <=? m) = true
  | None => values = []
  end.
Proof.
  unfold sql_max_text. pose proof (sql_max_text_acc values None) as H.
  destruct (fold_left _ values None) as [m|].
  - destruct H as ([H|H] & Hall & _); [discriminate|auto].
  - apply H.
Qed.

(** The watermark is the later of the stored maximum and the default. *)
Lemma watermark_some (m sixMonthsAgo : string) :
  watermark (Some m) sixMonthsAgo = string_max sixMonthsAgo m.
Proof.
  unfold watermark, string_max.
  destruct (String.eqb m "") eqn:E; [|reflexivity].
  apply String.eqb_eq in E. subst m. now rewrite ltb_empty.
Qed.

(** C3, as amended.  Without stored transactions the watermark is the
    default, six months before the current date.  With stored transactions
    it is the later of that default and the maximum of their months: the
    maximum when it is later than the default, the default otherwise. *)
Theorem watermark_later_of_max_month_and_default
    (d : Database) (sixMonthsAgo : string) :
  let filterDate := watermark (select_max_month d) sixMonthsAgo in
  (hdb_transactions d = [] -> filterDate = sixMonthsAgo) /\
  (hdb_transactions d <> [] ->
   exists max_month,
     select_max_month d = Some max_month /\
     In max_month (map month (hdb_transactions d)) /\
     (forall t, In t (hdb_transactions d) ->
                (month t <=? max_month) = true) /\
     filterDate = string_max sixMonthsAgo max_month /\
     ((sixMonthsAgo <? max_month) = true -> filterDate = max_month) /\
     ((sixMonthsAgo <? max_month) = false -> filterDate = sixMonthsAgo)).
Proof.
  intros filterDate. subst filterDate. unfold select_max_month. split.
  - intros ->. reflexivity.
  - intros Hne.
    pose proof (sql_max_text_spec (map month (hdb_transactions d))) as H.
    destruct (sql_max_text (map month (hdb_transactions d))) as [m|].
    + destruct H as [Hin Hall]. exists m. rewrite watermark_some.
      repeat split; auto.
      * intros t Ht. apply Hall. now apply in_map.
      * intros E. unfold string_max. now rewrite E.
      * intros E. unfold string_max. now rewrite E.
    + destruct (hdb_transactions d); [contradiction|discriminate].
Qed.

(** The claim evaluated on a database whose latest sale is of 2026-09,
    synchronized with a default of 2026-05. *)
Lemma watermark_later_of_max_month_and_default_witness :
  let d := database_of [sample_transaction "2026-08" 500000;
                        sample_transaction "2026-09" 510000] in
  hdb_transactions d <> [] /\
  watermark (select_max_month d) "2026-05" = "2026-09".
Proof.
  intros d. split; [discriminate|].
  destruct (watermark_later_of_max_month_and_default d "2026-05") as [_ H].
  destruct (H ltac:(discriminate)) as (m & Hm & _ & _ & Hw & _).
  rewrite Hw. injection Hm as <-. reflexivity.
Defined.

(** C3 as stated fails: transactions are stored, their latest month is
    2020-01, and the watermark is the default 2026-05. *)
Lemma watermark_not_max_month :
  let d := database_of [sample_transaction "2020-01" 400000] in
  hdb_transactions d <> [] /\
  select_max_month d = Some "2020-01" /\
  watermark (select_max_month d) "2026-05" = "2026-05" /\
  watermark (select_max_month d) "2026-05" <> "2020-01".
Proof. cbv zeta. repeat split; try reflexivity; discriminate. Qed.

(** C6.  A request without the cron header and without the shared secret
    is answered with 401; no statement reaches the database, which is left
    as it was. *)
Theorem unauthorized_request_rejected
    (request : Request) (DB : option Database) (clock : Clock)
    (source : Upstream.Source) (env : Enrichment) :
  isCron request = false ->
  secret_matches request = false ->
  GET request DB clock source env
  = Some (mkResponse 401 Unauthorized, DB, []).
Proof.
  intros Hcron Hsecret. unfold GET. now rewrite Hcron, Hsecret.
Qed.

(** The claim evaluated on a request with a wrong secret. *)
Lemma unauthorized_request_rejected_witness :
  isCron anonymous_request = false /\
  secret_matches anonymous_request = false /\
  GET anonymous_request (Some empty_database) sample_clock
      (fun _ => Upstream.Json true []) no_enrichment
  = Some (mkResponse 401 Unauthorized, Some empty_database, []).
Proof.
  split; [reflexivity|]. split; [reflexivity|].
  apply unauthorized_request_rejected; reflexivity.
Defined.

End TriggerFacts.

(* ================================================================== *)
(** * The page-fetch loop *)
(* ================================================================== *)

Module FetchFacts.
Import Cron StringOrder Samples.
Import Upstream (HDBRecord, FetchResult, Rejected, HttpError, Json, Source).

Section Loop.

Variable source : Source.
Variable filterDate : string.

Local Abbreviation page_at := (Cron.page_at source).
Local Abbreviation pages_from := (Cron.pages_from source filterDate).

Lemma keep_filtered (acc filtered : list HDBRecord) :
  (if (0 <? length filtered)%nat then acc ++ filtered else acc)
  = acc ++ filtered.
Proof. destruct filtered; [now rewrite app_nil_r|reflexivity]. Qed.

Lemma next_page_number (k : nat) :
  ((limit * Z.of_nat k + limit) / limit = Z.of_nat k + 1)%Z.
Proof.
  unfold limit.
  replace (1000 * Z.of_nat k + 1000)%Z with ((Z.of_nat k + 1) * 1000)%Z by lia.
  now rewrite Z.div_mul.
Qed.

(** One pass of the loop at page [k] takes the exit that [page_exit] names,
    or goes on to the next page, and keeps the relevant records of the page
    in both cases. *)
Lemma iteration_exit (k : nat) (acc : list HDBRecord) :
  iteration source filterDate (limit * Z.of_nat k)%Z acc =
    match page_exit filterDate k (page_at k) with
    | Some (Failure error) => Throw error
    | Some (Stop why) =>
        Break why (acc ++ page_records filterDate (page_at k))
    | None =>
        Next (limit * Z.of_nat k + limit)
          (acc ++ page_records filterDate (page_at k))
    end.
Proof.
  unfold iteration, page_exit, page_records, request_failed, rate_limited,
    no_data, newest_older, short_page, cap_reached, Cron.page_at.
  destruct (source (limit * Z.of_nat k)%Z) as [error|status text|success records].
  - reflexivity.
  - destruct (status =? 429)%Z; [now rewrite app_nil_r|reflexivity].
  - destruct success; [|now rewrite app_nil_r].
    destruct records as [|newest rest]; [now rewrite app_nil_r|].
    rewrite keep_filtered.
    destruct (Upstream.month newest <? filterDate)%string eqn:Enew;
      [reflexivity|].
    destruct (Z.of_nat (length (newest :: rest)) <? limit)%Z; [reflexivity|].
    assert (Hrel : relevant filterDate newest = true)
      by (apply leb_of_not_ltb; exact Enew).
    cbn [filter]. rewrite Hrel.
    assert (Hlen : (length (acc ++ newest :: filter (relevant filterDate) rest)
                    =? 0)%nat = false).
    { apply Nat.eqb_neq. rewrite length_app. cbn. lia. }
    rewrite Hlen. cbn [andb]. rewrite next_page_number.
    now destruct (maxPages <=? Z.of_nat k + 1)%Z.
Qed.

Lemma pages_from_S (k n : nat) :
  pages_from k (S n) = page_records filterDate (page_at k) ++ pages_from (S k) n.
Proof. reflexivity. Qed.

(** From page [k], the loop ends at the first page that has an exit. *)
Lemma fetchLoop_first_exit (n : nat) :
  forall (k fuel : nat) (acc : list HDBRecord) (exit : LoopExit),
    (k + n < 200)%nat -> (n < fuel)%nat ->
    (forall i, (k <= i < k + n)%nat ->
       page_exit filterDate i (page_at i) = None) ->
    page_exit filterDate (k + n) (page_at (k + n)) = Some exit ->
    fetchLoop source filterDate fuel (limit * Z.of_nat k) acc
    = Some (outcome_of exit (acc ++ pages_from k (S n))).
Proof.
  induction n as [|n IH]; intros k fuel acc exit Hk Hfuel Hnone Hexit;
    (destruct fuel as [|fuel]; [lia|]); cbn [fetchLoop];
    (replace (limit * Z.of_nat k <? 200000)%Z with true
       by (symmetry; apply Z.ltb_lt; unfold limit; lia));
    rewrite iteration_exit.
  - rewrite Nat.add_0_r in Hexit. rewrite Hexit.
    unfold pages_from. cbn [seq flat_map]. rewrite app_nil_r.
    now destruct exit.
  - rewrite (Hnone k) by lia.
    replace (limit * Z.of_nat k + limit)%Z with (limit * Z.of_nat (S k))%Z
      by (unfold limit; lia).
    rewrite (IH (S k) fuel _ exit); try lia.
    + rewrite (pages_from_S k (S n)), app_assoc. reflexivity.
    + intros i Hi. apply Hnone. lia.
    + now replace (S k + n)%nat with (k + S n)%nat by lia.
Qed.

(** The cap leaves no way past the fiftieth page. *)
Lemma page_exit_at_cap (response : FetchResult) :
  page_exit filterDate 49 response <> None.
Proof.
  unfold page_exit.
  destruct (request_failed response); [discriminate|].
  destruct (rate_limited response); [discriminate|].
  destruct (no_data response); [discriminate|].
  destruct (newest_older filterDate response); [discriminate|].
  destruct (short_page response); discriminate.
Qed.

(** Among the pages below [n], either one has an exit, and then there is a
    first such page, or none has. *)
Lemma first_exit_below (n : nat) :
  (exists k exit,
     (k < n)%nat /\ page_exit filterDate k (page_at k) = Some exit /\
     forall i, (i < k)%nat -> page_exit filterDate i (page_at i) = None)
  \/ (forall i, (i < n)%nat -> page_exit filterDate i (page_at i) = None).
Proof.
  induction n as [|n [(k & exit & Hk & Hexit & Hfirst)|Hnone]].
  - right. intros i Hi. lia.
  - left. exists k, exit. repeat split; auto.
  - destruct (page_exit filterDate n (page_at n)) as [exit|] eqn:E.
    + left. exists n, exit. repeat split; auto.
    + right. intros i Hi.
      destruct (Nat.eq_dec i n) as [->|Hne]; [exact E|apply Hnone; lia].
Qed.

End Loop.

(** The loop ends at the first page that has an exit, within 50 pages and
    whatever the fuel above 50. *)
Lemma fetchLoop_exit (source : Source) (filterDate : string) :
  exists (k : nat) (exit : LoopExit),
    (k < 50)%nat /\
    page_exit filterDate k (page_at source k) = Some exit /\
    (forall i, (i < k)%nat ->
       page_exit filterDate i (page_at source i) = None) /\
    forall fuel, (50 <= fuel)%nat ->
      fetchLoop source filterDate fuel 0 []
      = Some (outcome_of exit (pages_upto source filterDate (S k))).
Proof.
  destruct (first_exit_below source filterDate 50)
    as [(k & exit & Hk & Hexit & Hfirst)|Hnone].
  - exists k, exit. repeat split; auto.
    intros fuel Hfuel.
    apply (fetchLoop_first_exit source filterDate (n := k) (k := 0)
             (fuel := fuel) [] (exit := exit)); auto; try lia.
    intros i Hi. apply Hfirst. lia.
  - exfalso. apply (page_exit_at_cap filterDate (page_at source 49)).
    apply Hnone. lia.
Qed.

(** No page exits by the guard of the [while] or by the test on the first
    5000 records. *)
Lemma page_exit_reachable (filterDate : string) (k : nat)
    (response : FetchResult) (exit : LoopExit) :
  page_exit filterDate k response = Some exit -> reachable_exit exit.
Proof.
  unfold page_exit.
  destruct (request_failed response); [intros [= <-]; exact I|].
  destruct (rate_limited response); [intros [= <-]; exact I|].
  destruct (no_data response); [intros [= <-]; exact I|].
  destruct (newest_older filterDate response); [intros [= <-]; exact I|].
  destruct (short_page response); [intros [= <-]; exact I|].
  destruct (cap_reached k); [intros [= <-]; exact I|discriminate].
Qed.

(** C7, as amended.  The loop always ends, within 50 pages and whatever the
    fuel above 50.  It ends at the first page at which one of these holds, in
    this order of precedence: the request fails (the loop is left by an
    exception), the upstream answers 429, the payload is unsuccessful or
    empty, the newest record is older than the watermark, the page is short,
    the page cap is reached.  The relevant records of all pages read are
    kept.  The guard of the [while] and the test on the first 5000 records
    never end the loop. *)
Theorem fetch_loop_stops_at_first_exit
    (source : Source) (filterDate : string) :
  exists (k : nat) (exit : LoopExit),
    (k < 50)%nat /\
    page_exit filterDate k (page_at source k) = Some exit /\
    (forall i, (i < k)%nat ->
       page_exit filterDate i (page_at source i) = None) /\
    reachable_exit exit /\
    fetchAll source filterDate
    = Some (outcome_of exit (pages_upto source filterDate (S k))) /\
    forall fuel, (50 <= fuel)%nat ->
      fetchLoop source filterDate fuel 0 []
      = Some (outcome_of exit (pages_upto source filterDate (S k))).
Proof.
  destruct (fetchLoop_exit source filterDate)
    as (k & exit & Hk & Hexit & Hfirst & Hloop).
  exists k, exit. repeat split; auto.
  - exact (page_exit_reachable _ _ _ Hexit).
  - apply Hloop. lia.
Qed.

(** The claim evaluated on the feed that answers 429 from the third page
    on. *)
Lemma fetch_loop_stops_at_first_exit_witness :
  exists k exit,
    (k < 50)%nat /\
    fetchAll rate_limited_source "2026-05"
    = Some (outcome_of exit (pages_upto rate_limited_source "2026-05" (S k))).
Proof.
  destruct (fetch_loop_stops_at_first_exit rate_limited_source "2026-05")
    as (k & exit & Hk & _ & _ & _ & Hrun & _).
  now exists k, exit.
Defined.

(** A feed of full pages of relevant records is read up to the cap: 50
    pages, 50000 records. *)
Example fetch_loop_reaches_cap :
  match
    fetchAll (fun _ => Json true (full_page "2026-10" "500000")) "2026-05"
  with
  | Some (Stopped SafetyCap records) =>
      Z.of_nat (length records) = 50000%Z
  | _ => False
  end.
Proof. vm_compute. reflexivity. Qed.

(** C7 as stated fails: the loop also ends on a payload flagged
    unsuccessful, here a full page of relevant records, and on an error
    status other than 429, where it is left by an exception; at neither page
    does one of the four conditions of the claim hold. *)
Lemma fetch_loop_other_exits :
  let unsuccessful : Source :=
    fun _ => Json false (full_page "2026-10" "500000") in
  let broken : Source :=
    fun _ => HttpError 500 "Internal Server Error" in
  (fetchAll unsuccessful "2026-05" = Some (Stopped NoData []) /\
   rate_limited (unsuccessful 0%Z) = false /\
   newest_older "2026-05" (unsuccessful 0%Z) = false /\
   short_page (unsuccessful 0%Z) = false /\
   cap_reached 0 = false) /\
  (fetchAll broken "2026-05"
   = Some (Threw "Error: HDB API returned 500: Internal Server Error") /\
   rate_limited (broken 0%Z) = false /\
   newest_older "2026-05" (broken 0%Z) = false /\
   short_page (broken 0%Z) = false /\
   cap_reached 0 = false).
Proof. vm_compute. repeat split; reflexivity. Qed.

End FetchFacts.

(* ================================================================== *)
(** * Idempotent inserts *)
(* ================================================================== *)

Module InsertFacts.
Import Schema Sql.

Lemma key_eqb_eq (a b : NaturalKey) : key_eqb a b = true <-> a = b.
Proof.
  destruct a as [[[[[[m1 t1] f1] b1] s1] r1] p1].
  destruct b as [[[[[[m2 t2] f2] b2] s2] r2] p2].
  unfold key_eqb. rewrite !andb_true_iff, !String.eqb_eq, Z.eqb_eq.
  split.
  - intros [[[[[[-> ->] ->] ->] ->] ->] ->]. reflexivity.
  - intros [= -> -> -> -> -> -> ->]. repeat split.
Qed.




(** One insert: the table is extended by at most the row, and afterwards
    the key of the row is present. *)
Lemma insert_or_ignore_spec (row : Transaction) (table : list Transaction) :
  (insert_or_ignore row table = (table, 0%Z) \/
   insert_or_ignore row table = (table ++ [row], 1%Z)) /\
  forall k, natural_key row = Some k ->
            present k (fst (insert_or_ignore row table)).
Proof.
  unfold insert_or_ignore.
  destruct (natural_key row) as [k|] eqn:Hk.
  - destruct (existsb (has_key k) table) eqn:E.
    + split; [now left|]. intros k' [= <-]. exact E.
    + split; [now right|]. intros k' [= <-]. cbn [fst].
      unfold present. rewrite existsb_app. cbn [existsb].
      unfold has_key at 2. rewrite Hk.
      replace (key_eqb k k) with true by (symmetry; now apply key_eqb_eq).
      now rewrite orb_true_r.
  - split; [now left|]. discriminate.
Qed.






Lemma insert_all_app (a b table : list Transaction) :
  insert_all (a ++ b) table =
  (fst (insert_all b (fst (insert_all a table))),
   (snd (insert_all a table) + snd (insert_all b (fst (insert_all a table))))%Z).
Proof.
  revert table. induction a as [|r a IH]; intros table.
  - cbn. now destruct (insert_all b table).
  - cbn [app insert_all].
    destruct (insert_or_ignore r table) as [table' c].
    rewrite IH. destruct (insert_all a table') as [ta na]. cbn [fst snd].
    destruct (insert_all b ta) as [tb nb]. cbn [fst snd]. f_equal. lia.
Qed.



End InsertFacts.

(* ================================================================== *)
(** * The batch insert of the handler *)
(* ================================================================== *)

Module BatchFacts.
Import Schema Sql Cron InsertFacts.
Import Upstream (HDBRecord).

Lemma inserted_nil (st : Store) : inserted [] st = st.
Proof.
  destruct st as [[txns stats scores meta] tr].
  unfold inserted. cbn. now rewrite app_nil_r.
Qed.

Lemma inserted_app (a b : list Transaction) (st : Store) :
  inserted b (inserted a st) = inserted (a ++ b) st.
Proof.
  unfold inserted. cbn [db trace hdb_transactions price_statistics
    unit_scores sync_metadata].
  rewrite insert_all_app, map_app, app_assoc. reflexivity.
Qed.

Lemma inserted_cons (row : Transaction) (rest : list Transaction) (st : Store) :
  inserted rest (exec (InsertOrIgnoreTransaction row) st)
  = inserted (row :: rest) st.
Proof.
  unfold inserted, exec. cbn [db trace run hdb_transactions price_statistics
    unit_scores sync_metadata insert_all map].
  destruct (insert_or_ignore row (hdb_transactions (db st))) as [t' c].
  cbn [fst]. destruct (insert_all rest t') as [t'' n]. cbn [fst].
  now rewrite <- app_assoc.
Qed.

(** [DB.batch] runs the inserts in order, and the statements that report a
    change are as many as the rows inserted. *)
Lemma batch_spec (rows : list Transaction) (st : Store) :
  fst (batch rows st) = inserted rows st /\
  Z.of_nat (length (filter (fun changes => (0 <? changes)%Z)
                           (snd (batch rows st))))
  = snd (insert_all rows (hdb_transactions (db st))).
Proof.
  revert st. induction rows as [|row rest IH]; intros st.
  - cbn. split; [now rewrite inserted_nil|reflexivity].
  - cbn [batch].
    destruct (IH (exec (InsertOrIgnoreTransaction row) st)) as [Hst Hn].
    destruct (batch rest (exec (InsertOrIgnoreTransaction row) st))
      as [st' results].
    cbn [fst snd] in *. split; [now rewrite Hst, inserted_cons|].
    cbn [insert_all filter].
    cbn [exec db run hdb_transactions] in Hn.
    destruct (insert_or_ignore_spec row (hdb_transactions (db st)))
      as [[E|E] _]; rewrite E in *; cbn [fst snd] in *;
      destruct (insert_all rest _) as [t'' n]; cbn [snd] in *;
      [change (0 <? 0)%Z with false | change (0 <? 1)%Z with true];
      cbn [length]; lia.
Qed.

Lemma firstn_plus {A : Type} (a b : nat) (l : list A) :
  firstn (a + b) l = firstn a l ++ firstn b (skipn a l).
Proof.
  revert l. induction a as [|a IH]; intros l; [reflexivity|].
  destruct l as [|x l]; [now rewrite !firstn_nil|].
  cbn. now rewrite IH.
Qed.

(** The batches of 50 insert the records in order, one INSERT OR IGNORE
    each, and [insertedCount] is the number of rows inserted. *)
Lemma insertRecords_spec (allRecords : list HDBRecord) (st : Store) :
  insertRecords allRecords st
  = (inserted (map transaction_of allRecords) st,
     snd (insert_all (map transaction_of allRecords)
            (hdb_transactions (db st)))).
Proof.
  unfold insertRecords, for_indices.
  match goal with |- fold_left ?f _ _ = _ => set (step := f) end.
  assert (H : forall m,
    fold_left step (map (fun k => (k * batchSize)%nat) (seq 0 m)) (st, 0%Z)
    = (inserted (map transaction_of (firstn (m * batchSize) allRecords)) st,
       snd (insert_all
              (map transaction_of (firstn (m * batchSize) allRecords))
              (hdb_transactions (db st))))).
  { induction m as [|m IH].
    - cbn. now rewrite inserted_nil.
    - rewrite seq_S, map_app, fold_left_app, IH. cbn [map fold_left plus].
      unfold step at 1.
      set (A := map transaction_of (firstn (m * batchSize) allRecords)).
      set (B := map transaction_of
                  (slice (m * batchSize) (m * batchSize + batchSize)
                     allRecords)).
      destruct (batch_spec B (inserted A st)) as [Hst Hn].
      destruct (batch B (inserted A st)) as [st' results].
      cbn [fst snd] in Hst, Hn. rewrite Hst, Hn, inserted_app.
      assert (HAB : map transaction_of (firstn (S m * batchSize) allRecords)
                    = A ++ B).
      { unfold A, B, slice. rewrite <- map_app. f_equal.
        replace (S m * batchSize)%nat with (m * batchSize + batchSize)%nat
          by lia.
        rewrite firstn_plus. do 2 f_equal. lia. }
      rewrite HAB, insert_all_app. cbn [snd inserted db hdb_transactions].
      reflexivity. }
  rewrite H. rewrite firstn_all2; [reflexivity|].
  unfold batchSize.
  pose proof (Nat.div_mod_eq (length allRecords + 50 - 1) 50) as Hd.
  pose proof (Nat.mod_upper_bound (length allRecords + 50 - 1) 50) as Hm.
  lia.
Qed.

End BatchFacts.

(* ================================================================== *)
(** * The sync handler *)
(* ================================================================== *)

Module SyncFacts.
Import Schema Sql Cron InsertFacts BatchFacts StringOrder TriggerFacts
  FetchFacts Samples.
Import Upstream (HDBRecord, FetchResult, Rejected, HttpError, Json, Source).

(** ** What the later phases leave alone *)

Lemma update_coordinates_frame (lat lon : JS.number) (blk street : string)
    (table : list Transaction) :
  map natural_key (update_coordinates lat lon blk street table)
  = map natural_key table /\
  map month (update_coordinates lat lon blk street table) = map month table.
Proof.
  unfold update_coordinates. rewrite !map_map.
  split; apply map_ext; intros t;
    now destruct (String.eqb (block t) blk && String.eqb (street_name t) street).
Qed.

Lemma same_ledger_refl (a : Store) : same_ledger a a.
Proof. repeat split. Qed.

Lemma same_ledger_trans (a b c : Store) :
  same_ledger a b -> same_ledger b c -> same_ledger a c.
Proof.
  intros (H1 & H2 & H3) (H4 & H5 & H6).
  repeat split; etransitivity; eauto.
Qed.

Lemma enrich_one_frame (env : Enrichment) (clock : Clock) (token : string)
    (medians : list PriceStatistics) (txn : Transaction) (st : Store) :
  same_ledger (enrich_one env clock token medians txn st) st.
Proof.
  unfold enrich_one. destruct (getCoordinates env _ _) as [coords|];
    [|apply same_ledger_refl].
  unfold same_ledger, exec. cbn [db run hdb_transactions sync_metadata].
  destruct (update_coordinates_frame (c_latitude coords) (c_longitude coords)
              (block txn) (street_name txn) (hdb_transactions (db st)))
    as [H1 H2].
  repeat split; assumption.
Qed.

Lemma populateUnitScores_frame (env : Enrichment) (clock : Clock)
    (st : Store) :
  same_ledger (populateUnitScores env clock st) st.
Proof.
  unfold populateUnitScores.
  destruct (truthy (ONEMAP_EMAIL env)) as [email|]; [|apply same_ledger_refl].
  destruct (truthy (ONEMAP_PASSWORD env)) as [password|];
    [|apply same_ledger_refl].
  destruct (truthy (getOneMapToken env email password)) as [token|];
    [|apply same_ledger_refl].
  cbv zeta.
  set (st0 := exec (SelectBacklog _) (exec SelectLatestMedians st)).
  assert (H0 : same_ledger st0 st) by (repeat split).
  clearbody st0.
  generalize (select_latest_medians (db (exec SelectLatestMedians st))).
  intros medians.
  match goal with
  | |- same_ledger (fold_left _ ?l _) _ => generalize l
  end.
  intros backlog. revert st0 H0.
  induction backlog as [|txn backlog IH]; intros st0 H0; [exact H0|].
  cbn [fold_left]. apply IH.
  eapply same_ledger_trans; [apply enrich_one_frame|exact H0].
Qed.

Lemma insert_phase (allRecords : list HDBRecord) (st : Store) :
  (if (0 <? length allRecords)%nat then insertRecords allRecords st
   else (st, 0%Z))
  = (inserted (map transaction_of allRecords) st,
     snd (insert_all (map transaction_of allRecords)
            (hdb_transactions (db st)))).
Proof.
  destruct allRecords as [|r rest].
  - cbn. now rewrite inserted_nil.
  - cbn [length Nat.ltb Nat.leb]. apply insertRecords_spec.
Qed.

(** ** A run whose loop ends by a [break] *)

(** When the loop stops without an exception the handler answers 200 with
    the number of records fetched and inserted; the transactions stored
    afterwards are, up to their coordinates, the table after the inserts;
    and the sync row is set to completed with the inserted count. *)
Lemma sync_stopped (clock : Clock) (source : Source) (env : Enrichment)
    (st : Store) (why : StopReason) (allRecords : list HDBRecord) :
  fetchAll source
    (watermark (select_max_month (db st)) (six_months_ago clock))
  = Some (Stopped why allRecords) ->
  let ins :=
    insert_all (map transaction_of allRecords) (hdb_transactions (db st)) in
  exists st',
    sync clock source env st
    = Some (mkResponse 200
              (SyncSucceeded (Z.of_nat (length allRecords)) (snd ins)), st') /\
    map natural_key (hdb_transactions (db st')) = map natural_key (fst ins) /\
    map month (hdb_transactions (db st')) = map month (fst ins) /\
    sync_metadata (db st')
    = update_sync (set_completed (snd ins))
        (update_sync (set_running (now_iso clock)) (sync_metadata (db st))).
Proof.
  intros Hfetch ins. unfold sync. cbv zeta.
  change (select_max_month
            (db (exec SelectMaxMonth
                   (exec (UpdateSyncRunning (now_iso clock)) st))))
    with (select_max_month (db st)).
  rewrite Hfetch, insert_phase.
  set (st1 := exec SelectMaxMonth (exec (UpdateSyncRunning (now_iso clock)) st)).
  set (st2 := inserted (map transaction_of allRecords) st1).
  change (hdb_transactions (db st1)) with (hdb_transactions (db st)).
  fold ins.
  eexists. split; [reflexivity|].
  destruct (populateUnitScores_frame env clock (updateStatistics clock st2))
    as (Hk & Hm & Hs).
  cbn [exec db run hdb_transactions sync_metadata].
  rewrite Hk, Hm, Hs. repeat split.
Qed.

(** [UPDATE ... SET status = 'completed'] leaves no [hdb_data] row in
    another state. *)
Lemma completed_rows (n : Z) (table : list SyncMetadata) (r : SyncMetadata) :
  In r (update_sync (set_completed n) table) ->
  sync_type r = "hdb_data"%string ->
  status r = completed /\ records_processed r = n /\ error_message r = None.
Proof.
  unfold update_sync. rewrite in_map_iff. intros (r0 & <- & _) Htype.
  destruct (String.eqb (sync_type r0) "hdb_data") eqn:E.
  - repeat split.
  - apply String.eqb_neq in E. contradiction.
Qed.

Lemma update_sync_types (f : SyncMetadata -> SyncMetadata)
    (table : list SyncMetadata) :
  (forall r, sync_type (f r) = sync_type r) ->
  map sync_type (update_sync f table) = map sync_type table.
Proof.
  intros Hf. unfold update_sync. rewrite map_map. apply map_ext.
  intros r. destruct (String.eqb (sync_type r) "hdb_data"); auto.
Qed.

Lemma sync_threw (clock : Clock) (source : Source) (env : Enrichment)
    (st : Store) (error : string) :
  fetchAll source
    (watermark (select_max_month (db st)) (six_months_ago clock))
  = Some (Threw error) ->
  exists st',
    sync clock source env st
    = Some (mkResponse 500 (SyncFailed error), st') /\
    hdb_transactions (db st') = hdb_transactions (db st) /\
    forall r, In r (sync_metadata (db st')) ->
              sync_type r = "hdb_data"%string -> status r = failed.
Proof.
  intros Hfetch. unfold sync. cbv zeta.
  change (select_max_month
            (db (exec SelectMaxMonth
                   (exec (UpdateSyncRunning (now_iso clock)) st))))
    with (select_max_month (db st)).
  rewrite Hfetch. eexists. split; [reflexivity|]. split; [reflexivity|].
  cbn [exec db run sync_metadata]. intros r Hin Htype.
  unfold update_sync at 1 in Hin. apply in_map_iff in Hin.
  destruct Hin as (r0 & <- & _).
  destruct (String.eqb (sync_type r0) "hdb_data") eqn:E; [reflexivity|].
  apply String.eqb_neq in E. contradiction.
Qed.

(** ** The loop under a later watermark *)

Section Watermarks.

Variable source : Source.
Variables earlier later : string.
Hypothesis Hle : (earlier <=? later)%string = true.


Lemma page_exit_failure (f : string) (k : nat) (response : FetchResult)
    (error : string) :
  page_exit f k response = Some (Failure error) <->
  request_failed response = Some error.
Proof.
  unfold page_exit. destruct (request_failed response) as [e|].
  - split; intros [= ->]; reflexivity.
  - split; [|discriminate].
    destruct (rate_limited response); [discriminate|].
    destruct (no_data response); [discriminate|].
    destruct (newest_older f response); [discriminate|].
    destruct (short_page response); [discriminate|].
    destruct (cap_reached k); discriminate.
Qed.




End Watermarks.

Lemma watermark_mono (max1 max2 : option string) (d1 d2 : string) :
  (d1 <=? d2)%string = true ->
  (forall m1, max1 = Some m1 ->
     exists m2, max2 = Some m2 /\ (m1 <=? m2)%string = true) ->
  (watermark max1 d1 <=? watermark max2 d2)%string = true.
Proof.
  intros Hd Hmax.
  assert (Hup : (d2 <=? watermark max2 d2)%string = true).
  { destruct max2 as [m2|]; [|apply leb_refl].
    rewrite watermark_some. apply string_max_upper. }
  destruct max1 as [m1|]; [|cbn; eauto using leb_trans].
  destruct (Hmax m1 eq_refl) as (m2 & -> & Hm).
  rewrite !watermark_some in *.
  destruct (string_max_upper d2 m2) as (H1 & H2 & _).
  destruct (string_max_upper d1 m1) as (_ & _ & [-> | ->]);
    eauto using leb_trans.
Qed.

Lemma select_max_month_mono (a b : Database) :
  incl (map month (hdb_transactions a)) (map month (hdb_transactions b)) ->
  forall m1, select_max_month a = Some m1 ->
    exists m2, select_max_month b = Some m2 /\ (m1 <=? m2)%string = true.
Proof.
  unfold select_max_month. intros Hincl m1 H1.
  pose proof (sql_max_text_spec (map month (hdb_transactions a))) as Ha.
  pose proof (sql_max_text_spec (map month (hdb_transactions b))) as Hb.
  rewrite H1 in Ha. destruct Ha as [Hin _]. apply Hincl in Hin.
  destruct (sql_max_text (map month (hdb_transactions b))) as [m2|].
  - exists m2. split; [reflexivity|]. now apply Hb.
  - rewrite Hb in Hin. contradiction.
Qed.


(** The handler always answers: the fuel of the loop never runs out. *)
Lemma GET_total (request : Request) (DB : option Database) (clock : Clock)
    (source : Source) (env : Enrichment) :
  exists response DB' statements,
    GET request DB clock source env = Some (response, DB', statements).
Proof.
  unfold GET.
  destruct (negb (isCron request) && negb (secret_matches request));
    [now eexists _, _, _|].
  destruct DB as [d|]; [|now eexists _, _, _].
  set (f := watermark (select_max_month d) (six_months_ago clock)).
  destruct (fetchLoop_exit source f) as (k & e & _ & _ & _ & Hrun).
  specialize (Hrun 200%nat ltac:(lia)). fold (fetchAll source f) in Hrun.
  destruct e as [why|error]; cbn [outcome_of] in Hrun.
  - destruct (@sync_stopped clock source env (mkStore d []) why _ Hrun)
      as (st' & -> & _).
    now eexists _, _, _.
  - destruct (@sync_threw clock source env (mkStore d []) error Hrun)
      as (st' & -> & _).
    now eexists _, _, _.
Qed.

(** ** The claims on the handler *)





End SyncFacts.

(* ================================================================== *)
(** * More on the scoring engine *)
(* ================================================================== *)

Module ScoringMore.
Import JS Scoring ScoreLabels Aux JSFacts ScoringFacts.
Local Open Scope Q_scope.

Lemma location_score_value (d : Q) :
  calculateLocationScore (Fin d) =
    if Qle_bool d 200 then of_Z 100
    else if Qle_bool 1000 d then of_Z 0
    else of_Z (Qfloor (100 + - ((d + - 200) / 8) + 0.5)).
Proof.
  unfold calculateLocationScore. cbn [JS.le JS.ge].
  destruct (Qle_bool d 200); [reflexivity|].
  destruct (Qle_bool 1000 d); reflexivity.
Qed.

Lemma of_Z_inj (a b : Z) : of_Z a = of_Z b -> a = b.
Proof. intros [= H]. exact H. Qed.

Lemma eighth_le (a b : Q) : a <= b -> a / 8 <= b / 8.
Proof.
  intros H. unfold Qdiv. apply Qmult_le_compat_r; [exact H|].
  vm_compute. discriminate.
Qed.

Lemma location_interior (d : Q) :
  200 < d -> d < 1000 ->
  (0 <= Qfloor (100 + - ((d + - 200) / 8) + 0.5) <= 100)%Z.
Proof.
  intros Hlo Hhi.
  assert (H1 : 0 < (d + - 200) / 8) by (apply Qlt_shift_div_l; lra).
  assert (H2 : (d + - 200) / 8 <= 100) by (apply Qle_shift_div_r; lra).
  apply Qfloor_between.
  - change (inject_Z 0) with 0. lra.
  - change (inject_Z (100 + 1)) with 101. lra.
Qed.

(** The location score never rises with the distance: it is 100 up to
    200 m, 0 from 1000 m on, and an integer of [0,100] that does not
    increase in between. *)
Theorem location_score_monotone (d1 d2 : Q) :
  d1 <= d2 ->
  exists s1 s2 : Z,
    calculateLocationScore (Fin d1) = of_Z s1 /\
    calculateLocationScore (Fin d2) = of_Z s2 /\
    (0 <= s2 <= s1)%Z /\ (s1 <= 100)%Z /\
    (d1 <= 200 -> s1 = 100%Z) /\ (1000 <= d2 -> s2 = 0%Z).
Proof.
  intros Hd. rewrite !location_score_value.
  destruct (Qle_bool d1 200) eqn:E1; destruct (Qle_bool d2 200) eqn:E2;
    destruct (Qle_bool 1000 d1) eqn:E3; destruct (Qle_bool 1000 d2) eqn:E4;
    try apply Qle_bool_iff in E1; try apply Qle_bool_iff in E2;
    try apply Qle_bool_iff in E3; try apply Qle_bool_iff in E4;
    try apply Qle_bool_false in E1; try apply Qle_bool_false in E2;
    try apply Qle_bool_false in E3; try apply Qle_bool_false in E4;
    try (exfalso; lra);
    eexists _, _; (split; [reflexivity|]); (split; [reflexivity|]);
    try pose proof (location_interior E1 E3) as B1;
    try pose proof (location_interior E2 E4) as B2;
    repeat split; try lia; try (intros; exfalso; lra).
  apply Qfloor_resp_le.
  pose proof (@eighth_le (d1 + - 200) (d2 + - 200) ltac:(lra)). lra.
Qed.

(** The claim evaluated at 400 m and 600 m: scores 75 and 50. *)
Lemma location_score_monotone_witness :
  400 <= 600 /\
  calculateLocationScore (Fin 400) = of_Z 75 /\
  calculateLocationScore (Fin 600) = of_Z 50.
Proof.
  assert (H : 400 <= 600) by (vm_compute; discriminate).
  destruct (location_score_monotone H) as (s1 & s2 & H1 & H2 & _).
  split; [exact H|]. split; reflexivity.
Defined.

Lemma lease_score_value (y : Q) :
  calculateLeaseScore (Fin y) =
    if Qle_bool 90 y then of_Z 100
    else if Qle_bool 30 y then of_Z (Qfloor ((y + - 30) * 1.67 + 0.5))
    else of_Z 0.
Proof.
  unfold calculateLeaseScore. cbn [JS.le JS.ge JS.lt].
  destruct (Qle_bool 90 y); [reflexivity|].
  destruct (Qle_bool 30 y); reflexivity.
Qed.

Lemma lease_interior (y : Q) :
  30 <= y -> y < 90 -> (0 <= Qfloor ((y + - 30) * 1.67 + 0.5) <= 100)%Z.
Proof.
  intros Hlo Hhi. apply Qfloor_between.
  - change (inject_Z 0) with 0. lra.
  - change (inject_Z (100 + 1)) with 101. lra.
Qed.

(** The lease score never falls with the remaining lease: it is 0 below 30
    years, 100 from 90 years on, and an integer of [0,100] that does not
    decrease in between. *)
Theorem lease_score_monotone (y1 y2 : Q) :
  y1 <= y2 ->
  exists s1 s2 : Z,
    calculateLeaseScore (Fin y1) = of_Z s1 /\
    calculateLeaseScore (Fin y2) = of_Z s2 /\
    (0 <= s1 <= s2)%Z /\ (s2 <= 100)%Z /\
    (y2 < 30 -> s2 = 0%Z) /\ (90 <= y1 -> s1 = 100%Z).
Proof.
  intros Hy. rewrite !lease_score_value.
  destruct (Qle_bool 90 y1) eqn:E1; destruct (Qle_bool 90 y2) eqn:E2;
    destruct (Qle_bool 30 y1) eqn:E3; destruct (Qle_bool 30 y2) eqn:E4;
    try apply Qle_bool_iff in E1; try apply Qle_bool_iff in E2;
    try apply Qle_bool_iff in E3; try apply Qle_bool_iff in E4;
    try apply Qle_bool_false in E1; try apply Qle_bool_false in E2;
    try apply Qle_bool_false in E3; try apply Qle_bool_false in E4;
    try (exfalso; lra);
    eexists _, _; (split; [reflexivity|]); (split; [reflexivity|]);
    try pose proof (lease_interior E3 E1) as B1;
    try pose proof (lease_interior E4 E2) as B2;
    repeat split; try lia; try (intros; exfalso; lra).
  apply Qfloor_resp_le. lra.
Qed.

(** The claim evaluated at 60 and 89 years: scores 50 and 99. *)
Lemma lease_score_monotone_witness :
  60 <= 89 /\
  calculateLeaseScore (Fin 60) = of_Z 50 /\
  calculateLeaseScore (Fin 89) = of_Z 99.
Proof.
  assert (H : 60 <= 89) by (vm_compute; discriminate).
  destruct (lease_score_monotone H) as (s1 & s2 & H1 & H2 & _).
  split; [exact H|]. split; reflexivity.
Defined.

Lemma price_interior (r : Q) :
  0.70 < r -> r < 1.50 ->
  (0 <= Qfloor (100 + - ((r + - 0.70) * 125) + 0.5) <= 100)%Z.
Proof.
  intros Hlo Hhi. apply Qfloor_between.
  - change (inject_Z 0) with 0. lra.
  - change (inject_Z (100 + 1)) with 101. lra.
Qed.

(** Against a positive median the price score never rises with the price:
    a dearer unit never scores higher. *)
Theorem price_score_monotone (p1 p2 m : Q) :
  0 < m -> p1 <= p2 ->
  exists s1 s2 : Z,
    calculatePriceScore (Fin p1) (Fin m) = of_Z s1 /\
    calculatePriceScore (Fin p2) (Fin m) = of_Z s2 /\
    (0 <= s2 <= s1)%Z /\ (s1 <= 100)%Z.
Proof.
  intros Hm Hp. rewrite !(price_score_ratio _ Hm).
  assert (Hr : p1 / m <= p2 / m).
  { unfold Qdiv. apply Qmult_le_compat_r; [exact Hp|].
    apply Qlt_le_weak, Qinv_lt_0_compat, Hm. }
  set (r1 := p1 / m) in *. set (r2 := p2 / m) in *.
  unfold Math_round.
  destruct (Qle_bool r1 0.70) eqn:E1; destruct (Qle_bool r2 0.70) eqn:E2;
    destruct (Qle_bool 1.50 r1) eqn:E3; destruct (Qle_bool 1.50 r2) eqn:E4;
    try apply Qle_bool_iff in E1; try apply Qle_bool_iff in E2;
    try apply Qle_bool_iff in E3; try apply Qle_bool_iff in E4;
    try apply Qle_bool_false in E1; try apply Qle_bool_false in E2;
    try apply Qle_bool_false in E3; try apply Qle_bool_false in E4;
    try (exfalso; lra);
    try pose proof (price_interior E1 E3) as B1;
    try pose proof (price_interior E2 E4) as B2;
    eexists _, _;
    (split; [reflexivity || (change (Fin 100) with (of_Z 100); reflexivity)
                         || (change (Fin 0) with (of_Z 0); reflexivity)|]);
    (split; [reflexivity || (change (Fin 100) with (of_Z 100); reflexivity)
                         || (change (Fin 0) with (of_Z 0); reflexivity)|]);
    repeat split; try lia.
  apply Qfloor_resp_le. lra.
Qed.

(** The claim evaluated on prices 90 and 110 against a median of 100:
    scores 75 and 50. *)
Lemma price_score_monotone_witness :
  0 < 100 /\ 90 <= 110 /\
  calculatePriceScore (Fin 90) (Fin 100) = of_Z 75 /\
  calculatePriceScore (Fin 110) (Fin 100) = of_Z 50.
Proof.
  assert (Hm : 0 < 100) by reflexivity.
  assert (Hp : 90 <= 110) by (vm_compute; discriminate).
  destruct (price_score_monotone Hm Hp) as (s1 & s2 & H1 & H2 & _).
  split; [exact Hm|]. split; [exact Hp|]. split; reflexivity.
Defined.

(** The amenities score is 30 for schools, 30 for malls, 20 for parks and
    20 for hawker centres, counted once each when the count is positive: the
    cap at 100 never cuts, the size of a count does not matter, and a count
    that is zero, negative or NaN adds nothing.  The score is 100 exactly
    when all four kinds are present. *)
Theorem amenities_score_value (a : Amenities) :
  calculateAmenitiesScore a
  = of_Z (30 * present_Z (schools a) + 30 * present_Z (malls a)
          + 20 * present_Z (parks a) + 20 * present_Z (hawkers a)) /\
  (calculateAmenitiesScore a = of_Z 100 <->
   JS.gt (schools a) (Fin 0) = true /\ JS.gt (malls a) (Fin 0) = true /\
   JS.gt (parks a) (Fin 0) = true /\ JS.gt (hawkers a) (Fin 0) = true).
Proof.
  unfold calculateAmenitiesScore, present_Z.
  destruct (JS.gt (schools a) (Fin 0)), (JS.gt (malls a) (Fin 0)),
    (JS.gt (parks a) (Fin 0)), (JS.gt (hawkers a) (Fin 0));
    (split; [vm_compute; reflexivity|]);
    (split; [intros H; try (repeat split; reflexivity);
             vm_compute in H; discriminate H
            |intros (H1 & H2 & H3 & H4); try discriminate;
             vm_compute; reflexivity]).
Qed.

(** ** The appreciation score of a flat history *)

Lemma reduce_xy_value (qs : list Q) (x : Z) (a : Q) :
  reduce_xy x (Fin a) (map Fin qs) = Fin (reduce_xy_Q x a qs).
Proof.
  revert x a. induction qs as [|q qs IH]; intros x a; [reflexivity|].
  cbn [map reduce_xy reduce_xy_Q of_Z JS.mul JS.add]. apply IH.
Qed.

Lemma sum_repeat (c : Q) (n : nat) (a : Q) :
  fold_left Qplus (repeat c n) a == a + inject_Z (Z.of_nat n) * c.
Proof.
  revert a. induction n as [|n IH]; intros a.
  - cbn. ring.
  - cbn [repeat fold_left]. rewrite IH, Nat2Z.inj_succ.
    unfold Z.succ. rewrite inject_Z_plus. change (inject_Z 1) with 1. ring.
Qed.

Lemma reduce_xy_repeat (c : Q) (n : nat) (x : Z) (a : Q) :
  reduce_xy_Q x a (repeat c n)
  == a + c * (inject_Z (Z.of_nat n) * inject_Z x
              + inject_Z (Z.of_nat n) * (inject_Z (Z.of_nat n) - 1) / 2).
Proof.
  revert x a. induction n as [|n IH]; intros x a.
  - cbn. field.
  - cbn [repeat reduce_xy_Q]. rewrite IH, Nat2Z.inj_succ.
    unfold Z.succ. rewrite !inject_Z_plus. change (inject_Z 1) with 1. field.
Qed.

(** The growth computed from a history of [n] equal prices [c]. *)
Lemma flat_growth (c : Q) (n : nat) :
  (4 <= n)%nat ->
  let nq := inject_Z (Z.of_nat n) in
  let ySum := fold_left Qplus (repeat c n) 0 in
  let xy := reduce_xy_Q 0 0 (repeat c n) in
  4 <= nq /\ ySum == nq * c /\
  nq * xy + - (nq * (nq + - (1)) / 2 * ySum) == 0.
Proof.
  intros Hn. cbv zeta.
  assert (Hnq : 4 <= inject_Z (Z.of_nat n)).
  { change 4 with (inject_Z 4). rewrite <- Zle_Qle. lia. }
  assert (Hy : fold_left Qplus (repeat c n) 0 == inject_Z (Z.of_nat n) * c)
    by (rewrite sum_repeat; ring).
  split; [exact Hnq|]. split; [exact Hy|].
  rewrite Hy, reduce_xy_repeat.
  change (inject_Z 0) with 0. field.
Qed.



(** A history of four or more prices that are all zero has no growth rate:
    the mean is zero, the division by it gives NaN, and NaN is what the
    function returns. *)
Theorem appreciation_score_zero_history (n : nat) :
  (4 <= n)%nat ->
  calculateAppreciationScore (repeat (Fin 0) n) = NaN.
Proof.
  intros Hlen. unfold calculateAppreciationScore. rewrite repeat_length.
  replace (n <? 4)%nat with false by (symmetry; apply Nat.ltb_ge; exact Hlen).
  replace (repeat (Fin 0) n) with (map Fin (repeat 0 n))
    by (now rewrite map_repeat).
  rewrite fold_add_Fin, reduce_xy_value.
  destruct (flat_growth 0 Hlen) as (Hn & Hy & Hnum).
  set (nq := inject_Z (Z.of_nat n)) in *.
  set (ySum := fold_left Qplus (repeat 0 n) 0) in *.
  set (xy := reduce_xy_Q 0 0 (repeat 0 n)) in *.
  assert (Hden := regression_denominator_positive (n := nq) ltac:(lra)).
  change (of_Z (Z.of_nat n)) with (Fin nq).
  assert (Hy0 : ySum == 0) by (rewrite Hy; ring).
  repeat fin_step.
  match goal with
  | |- context [JS.div (Fin ?s) (Fin ?v)] =>
      assert (Hs : s == 0) by (rewrite Hnum; unfold Qdiv; ring);
      assert (Hv : v == 0) by (rewrite Hy0; unfold Qdiv; ring);
      replace (JS.div (Fin s) (Fin v)) with NaN
  end.
  - reflexivity.
  - cbn [JS.div]. apply Qeq_bool_iff in Hv. rewrite Hv.
    unfold Qsgn. apply Qeq_alt in Hs. now rewrite Hs.
Qed.

(** The claim evaluated on a history of five zeros. *)
Lemma appreciation_score_zero_history_witness :
  (4 <= 5)%nat /\ calculateAppreciationScore (repeat (Fin 0) 5) = NaN.
Proof.
  split; [lia|]. apply appreciation_score_zero_history. lia.
Defined.

(** ** Labels and colours *)

(** The label and the colour of a score always name the same band: two
    scores have the same label exactly when they have the same colour.  A
    score that is NaN falls in the lowest band. *)
Theorem label_and_colour_agree (a b : number) :
  (getScoreLabel a = getScoreLabel b <-> getScoreColor a = getScoreColor b) /\
  getScoreLabel NaN = "Poor Value"%string /\
  getScoreColor NaN = "#ef4444"%string.
Proof.
  split; [|split; reflexivity].
  unfold getScoreLabel, getScoreColor.
  destruct (JS.ge a (Fin 80)), (JS.ge a (Fin 65)), (JS.ge a (Fin 50)),
    (JS.ge a (Fin 35)), (JS.ge b (Fin 80)), (JS.ge b (Fin 65)),
    (JS.ge b (Fin 50)), (JS.ge b (Fin 35));
    split; intros H; try reflexivity; discriminate H.
Qed.

(** The band of a finite score: 80, 65, 50 and 35 are the lower ends of the
    bands, and the label never gets worse as the score rises. *)
Theorem score_label_bands (s : Q) :
  (80 <= s <-> getScoreLabel (Fin s) = "Excellent Value"%string) /\
  (65 <= s < 80 <-> getScoreLabel (Fin s) = "Good Value"%string) /\
  (50 <= s < 65 <-> getScoreLabel (Fin s) = "Fair Value"%string) /\
  (35 <= s < 50 <-> getScoreLabel (Fin s) = "Below Average"%string) /\
  (s < 35 <-> getScoreLabel (Fin s) = "Poor Value"%string).
Proof.
  unfold getScoreLabel. cbn [JS.ge JS.le].
  destruct (Qle_bool 80 s) eqn:E1; destruct (Qle_bool 65 s) eqn:E2;
    destruct (Qle_bool 50 s) eqn:E3; destruct (Qle_bool 35 s) eqn:E4;
    try apply Qle_bool_iff in E1; try apply Qle_bool_iff in E2;
    try apply Qle_bool_iff in E3; try apply Qle_bool_iff in E4;
    try apply Qle_bool_false in E1; try apply Qle_bool_false in E2;
    try apply Qle_bool_false in E3; try apply Qle_bool_false in E4;
    repeat split; intros; try reflexivity; try discriminate; try lra.
Qed.

(** ** The breakdown of a valid unit *)


End ScoringMore.

(* ================================================================== *)
(** * lib/db.ts: numbers *)
(* ================================================================== *)

Module DbFacts.
Import JS DbNumbers JSFacts ScoringFacts.
Local Open Scope Q_scope.

(** ** Price per square metre *)


(** ** Moving average *)

Section MovingAverageFacts.

Variable T : Type.
Variable median_price : T -> number.

Lemma indexed_from (data : list T) (s i : nat) :
  nth_error (combine (map Z.of_nat (seq s (length data))) data) i
  = option_map (fun item => (Z.of_nat (s + i), item)) (nth_error data i).
Proof.
  revert s i. induction data as [|d data IH]; intros s i.
  - now destruct i.
  - destruct i as [|i]; cbn [length seq map combine nth_error option_map].
    + now rewrite Nat.add_0_r.
    + rewrite IH. now rewrite Nat.add_succ_r.
Qed.

Lemma nth_error_indexed (data : list T) (i : nat) :
  nth_error (indexed data) i
  = option_map (fun item => (Z.of_nat i, item)) (nth_error data i).
Proof. apply (indexed_from data 0 i). Qed.

Lemma map_snd_indexed (data : list T) : map snd (indexed data) = data.
Proof.
  unfold indexed. generalize 0%nat.
  induction data as [|d data IH]; intros s; [reflexivity|].
  cbn [length seq map combine snd]. now rewrite IH.
Qed.



(** The answer keeps the items in order; the moving average is null exactly
    at the indices below [window - 1]; and with a window of zero every
    moving average is NaN. *)
Theorem moving_average_shape (data : list T) (window : Z) :
  let result := calculateMovingAverage median_price data window in
  map fst result = data /\
  (forall i item avg,
     nth_error result i = Some (item, avg) ->
     (avg = None <-> (Z.of_nat i < window - 1)%Z)) /\
  (window = 0%Z -> forall entry, In entry result -> snd entry = Some NaN).
Proof.
  intros result. subst result. unfold calculateMovingAverage.
  split; [|split].
  - rewrite map_map. rewrite <- (map_snd_indexed data) at 2.
    apply map_ext. intros [idx item]. now destruct (idx <? window - 1)%Z.
  - intros i item avg. rewrite nth_error_map, nth_error_indexed.
    destruct (nth_error data i) as [d|]; [|discriminate].
    cbn [option_map].
    destruct (Z.of_nat i <? window - 1)%Z eqn:E; intros [= <- <-].
    + apply Z.ltb_lt in E. now split.
    + apply Z.ltb_ge in E. split; [discriminate|lia].
  - intros -> entry Hin. apply in_map_iff in Hin.
    destruct Hin as ([idx item] & <- & Hin).
    assert (Hidx : (0 <= idx)%Z).
    { unfold indexed in Hin. apply in_combine_l in Hin.
      apply in_map_iff in Hin. destruct Hin as (n & <- & _). lia. }
    replace (idx <? 0 - 1)%Z with false by (symmetry; lia).
    cbn [snd]. unfold js_slice.
    replace (idx - 0 + 1)%Z with (idx + 1)%Z by lia.
    rewrite Z.sub_diag. reflexivity.
Qed.


End MovingAverageFacts.


End DbFacts.

(* ================================================================== *)
(** * Reading numbers from the upstream strings *)
(* ================================================================== *)

Module ParseFacts.
Import Builtins Db Aux.
Local Open Scope Z_scope.
Local Open Scope string_scope.










(** A lease string with no digit has no years: the result is null. *)
Theorem extractLeaseYears_without_digit (s : string) :
  all_chars (fun c => negb (is_digit c)) s = true ->
  extractLeaseYears s = None.
Proof.
  intros Hs.
  assert (H : match_years s = None).
  { induction s as [|c s IH]; [reflexivity|].
    cbn [all_chars] in Hs. apply andb_true_iff in Hs. destruct Hs as [Hc Hs].
    cbn [match_years span_digits].
    apply negb_true_iff in Hc. rewrite Hc. now apply IH. }
  unfold extractLeaseYears. rewrite H. now destruct s.
Qed.

Lemma extractLeaseYears_without_digit_witness :
  extractLeaseYears "not stated" = None.
Proof. apply extractLeaseYears_without_digit. reflexivity. Defined.

End ParseFacts.

(* ================================================================== *)
(** * lib/cache.ts: what a key identifies *)
(* ================================================================== *)

Module CacheFacts.
Import Cache Aux.
Local Open Scope string_scope.

Lemma append_assoc (a b c : string) : (a ++ b) ++ c = a ++ (b ++ c).
Proof. induction a as [|d a IH]; [reflexivity|]. cbn. now rewrite IH. Qed.

Lemma split_unique (c : ascii) (a a' x x' : string) :
  lacks c a = true -> lacks c a' = true ->
  a ++ String c x = a' ++ String c x' -> a = a' /\ x = x'.
Proof.
  revert a'. induction a as [|d a IH]; intros [|d' a'] Ha Ha' E;
    cbn [String.append lacks] in *.
  - injection E as ->. now split.
  - injection E as <- _. apply andb_true_iff in Ha'.
    rewrite Ascii.eqb_refl in Ha'. now destruct Ha'.
  - injection E as -> _. apply andb_true_iff in Ha.
    rewrite Ascii.eqb_refl in Ha. now destruct Ha.
  - injection E as -> E. apply andb_true_iff in Ha, Ha'.
    destruct (IH a') as [-> ->]; tauto.
Qed.

(** Two comparison queries whose towns and flat types hold no colon have
    the same key only when they are the same query. *)
Theorem comparison_key_injective
    (town flatType range town' flatType' range' : string) :
  lacks ":" town = true -> lacks ":" flatType = true ->
  lacks ":" town' = true -> lacks ":" flatType' = true ->
  getComparisonCacheKey town flatType range
  = getComparisonCacheKey town' flatType' range' ->
  town = town' /\ flatType = flatType' /\ range = range'.
Proof.
  intros Ht Hf Ht' Hf' E. unfold getComparisonCacheKey, CACHE_VERSION in E.
  cbn [String.append] in E. injection E as E.
  change (":" ++ ?x) with (String ":" x) in E.
  apply split_unique in E; [|assumption..]. destruct E as [-> E].
  apply split_unique in E; [|assumption..]. destruct E as [-> ->].
  now repeat split.
Qed.

Lemma comparison_key_injective_witness :
  getComparisonCacheKey "BEDOK" "4 ROOM" "1Y"
  = "v1:comparison:BEDOK:4 ROOM:1Y" /\
  ("BEDOK" = "BEDOK" /\ "4 ROOM" = "4 ROOM" /\ "1Y" = "1Y").
Proof.
  split; [reflexivity|].
  apply (@comparison_key_injective "BEDOK" "4 ROOM" "1Y"
           "BEDOK" "4 ROOM" "1Y"); reflexivity.
Defined.

(** Keys of different families never coincide; within the comparison
    family a colon inside a component lets two different queries share a
    key. *)
Theorem cache_key_families (a b c a' b' c' : string) :
  getComparisonCacheKey a b c <> getTrendsCacheKey a' b' c' /\
  getComparisonCacheKey a b c <> getScoreCacheKey a' b' /\
  getComparisonCacheKey a b c <> getGeocodeCacheKey a' b' /\
  getTrendsCacheKey a b c <> getScoreCacheKey a' b' /\
  getTrendsCacheKey a b c <> getGeocodeCacheKey a' b' /\
  getScoreCacheKey a b <> getGeocodeCacheKey a' b' /\
  getComparisonCacheKey (a ++ ":" ++ b) c a'
  = getComparisonCacheKey a (b ++ ":" ++ c) a'.
Proof.
  unfold getComparisonCacheKey, getTrendsCacheKey, getScoreCacheKey,
    getGeocodeCacheKey, CACHE_VERSION.
  repeat split; try (cbn [String.append]; discriminate).
  cbn [String.append]. now rewrite !append_assoc.
Qed.

(** ** The key of the comparison endpoint *)

Lemma substring_all (s : string) : String.substring 0 (String.length s) s = s.
Proof. induction s as [|c s IH]; [reflexivity|]. cbn. now rewrite IH. Qed.

(** The first occurrence of [v1] in a key that starts with it is its
    head. *)
Lemma split_version (rest : string) :
  split_first "v1" ("v1" ++ rest) = Some ("", rest).
Proof.
  cbn [String.append split_first String.prefix].
  destruct (ascii_dec "v" "v") as [_|N]; [|now elim N].
  destruct (ascii_dec "1" "1") as [_|N]; [|now elim N].
  cbn [String.prefix String.length Nat.sub String.substring].
  rewrite Nat.sub_0_r, substring_all.
  replace (String.prefix "" rest) with true by now destruct rest.
  reflexivity.
Qed.

Lemma substitute_plain (matched before after replacement : string) :
  lacks "$" replacement = true ->
  substitute matched before after replacement = replacement.
Proof.
  induction replacement as [|c r IH]; intros H; [reflexivity|].
  cbn [lacks] in H. apply andb_true_iff in H. destruct H as [Hc Hr].
  apply negb_true_iff in Hc. cbn [substitute]. rewrite Hc.
  now rewrite (IH Hr).
Qed.

(** When no filter holds a dollar sign, the key of the comparison endpoint
    is the key of the query with the version tag [v1] at its head replaced
    by [v4-] and the four filters: an occurrence of [v1] inside the town is
    left alone. *)
Theorem comparison_cache_key_versioned (town flatType range : string)
    (storey minArea maxArea minLease : option string) :
  let filterKey :=
    or_empty storey ++ "-" ++ or_empty minArea ++ "-" ++ or_empty maxArea
    ++ "-" ++ or_empty minLease in
  lacks "$" filterKey = true ->
  comparison_cache_key town flatType range storey minArea maxArea minLease
  = "v4-" ++ filterKey ++ ":comparison:" ++ town ++ ":" ++ flatType
    ++ ":" ++ range.
Proof.
  intros filterKey Hplain. unfold comparison_cache_key. fold filterKey.
  unfold js_replace, getComparisonCacheKey, CACHE_VERSION.
  set (rest := ":comparison:" ++ town ++ ":" ++ flatType ++ ":" ++ range).
  pose proof (split_version rest) as Hsplit.
  rewrite Hsplit. rewrite substitute_plain by exact Hplain.
  reflexivity.
Qed.

Lemma comparison_cache_key_versioned_witness :
  comparison_cache_key "v1 TOWN" "4 ROOM" "1Y" (Some "07 TO 09") None
    (Some "120") None
  = "v4-07 TO 09--120-:comparison:v1 TOWN:4 ROOM:1Y".
Proof.
  apply (@comparison_cache_key_versioned "v1 TOWN" "4 ROOM" "1Y"
           (Some "07 TO 09") None (Some "120") None).
  reflexivity.
Defined.

Lemma substitute_app_plain (matched before after plain replacement : string) :
  lacks "$" plain = true ->
  substitute matched before after (plain ++ replacement)
  = plain ++ substitute matched before after replacement.
Proof.
  induction plain as [|c plain IH]; intros H; [reflexivity|].
  cbn [lacks] in H. apply andb_true_iff in H. destruct H as [Hc Hp].
  apply negb_true_iff in Hc. cbn [String.append substitute]. rewrite Hc.
  now rewrite (IH Hp).
Qed.

(** A dollar sign in a filter is read as a replacement pattern: a storey
    filter that ends in [$$] shares its key with the one that ends in [$],
    and a storey filter that ends in [$&] shares its key with the one that
    ends in the version tag [v1]. *)
Theorem comparison_cache_key_dollar (town flatType range storey : string)
    (minArea maxArea minLease : option string) :
  lacks "$" storey = true ->
  comparison_cache_key town flatType range (Some (storey ++ "$$"))
    minArea maxArea minLease
  = comparison_cache_key town flatType range (Some (storey ++ "$"))
      minArea maxArea minLease
  /\
  comparison_cache_key town flatType range (Some (storey ++ "$&"))
    minArea maxArea minLease
  = comparison_cache_key town flatType range (Some (storey ++ "v1"))
      minArea maxArea minLease.
Proof.
  intros Hplain.
  unfold comparison_cache_key, js_replace, getComparisonCacheKey, CACHE_VERSION.
  set (rest := ":comparison:" ++ town ++ ":" ++ flatType ++ ":" ++ range).
  rewrite (split_version rest). cbn [or_empty].
  set (tail := or_empty minArea ++ "-" ++ or_empty maxArea ++ "-"
               ++ or_empty minLease).
  assert (Hhead : lacks "$" ("v4-" ++ storey) = true) by exact Hplain.
  assert (Hshape : forall last,
    "v4-" ++ (storey ++ last) ++ "-" ++ tail
    = ("v4-" ++ storey) ++ last ++ "-" ++ tail).
  { intros last. cbn [String.append]. now rewrite append_assoc. }
  rewrite !Hshape, !(@substitute_app_plain _ _ _ _ _ Hhead).
  split; reflexivity.
Qed.

Lemma comparison_cache_key_dollar_witness :
  comparison_cache_key "BEDOK" "4 ROOM" "1Y" (Some "07 TO 09$$") None None
    None
  = comparison_cache_key "BEDOK" "4 ROOM" "1Y" (Some "07 TO 09$") None None
      None
  /\
  comparison_cache_key "BEDOK" "4 ROOM" "1Y" (Some "07 TO 09$&") None None
    None
  = comparison_cache_key "BEDOK" "4 ROOM" "1Y" (Some "07 TO 09v1") None None
      None.
Proof.
  apply (@comparison_cache_key_dollar "BEDOK" "4 ROOM" "1Y" "07 TO 09"
           None None None).
  reflexivity.
Defined.

End CacheFacts.

(* ================================================================== *)
(** * pages/api/comparison.ts: median and trends *)
(* ================================================================== *)

Module ComparisonFacts.
Import JS Comparison ComparisonTrends JSFacts ScoringFacts.

(** ** The per-month median *)

Section Median.
Local Open Scope Z_scope.









End Median.


(** ** Month-over-month and year-over-year *)

Local Open Scope Q_scope.


Section TrendsFacts.

Variable T : Type.
Variable median_price : T -> number.

(** The rows keep their order.  Every row but the last has a
    month-over-month change, computed against the next row; every row but
    the last twelve has a year-over-year change, computed against the
    twelfth row after it. *)
Theorem trends_shape (array : list T) :
  let result := dataWithTrends median_price array in
  map (fun r => fst (fst r)) result = array /\
  forall i item mom yoy,
    nth_error result i = Some (item, mom, yoy) ->
    nth_error array i = Some item /\
    mom = option_map (fun prev => change_pct (median_price item)
                                    (median_price prev))
            (nth_error array (i + 1)) /\
    yoy = option_map (fun yearAgo => change_pct (median_price item)
                                       (median_price yearAgo))
            (nth_error array (i + 12)) /\
    (mom = None <-> (i + 1 = length array)%nat) /\
    (yoy = None <-> (length array <= i + 12)%nat).
Proof.
  intros result. subst result. unfold dataWithTrends. cbv zeta. split.
  - rewrite map_map.
    rewrite <- (DbFacts.map_snd_indexed array) at 2.
    apply map_ext. now intros [idx item].
  - intros i item mom yoy.
    rewrite nth_error_map, DbFacts.nth_error_indexed.
    destruct (nth_error array i) as [d|] eqn:Hd; [|discriminate].
    cbn [option_map].
    assert (Hi : (i < length array)%nat)
      by (apply nth_error_Some; congruence).
    replace (Z.to_nat (Z.of_nat i + 1)) with (i + 1)%nat by lia.
    replace (Z.to_nat (Z.of_nat i + 12)) with (i + 12)%nat by lia.
    intros [= <- <- <-]. split; [reflexivity|].
    destruct (Z.of_nat i <? Z.of_nat (length array) - 1)%Z eqn:E1;
      destruct (Z.of_nat i + 12 <? Z.of_nat (length array))%Z eqn:E2;
      try apply Z.ltb_lt in E1; try apply Z.ltb_lt in E2;
      try apply Z.ltb_ge in E1; try apply Z.ltb_ge in E2;
      destruct (nth_error array (i + 1)) as [prev|] eqn:H1;
      destruct (nth_error array (i + 12)) as [yearAgo|] eqn:H12;
      try (apply nth_error_None in H1); try (apply nth_error_None in H12);
      try (assert (i + 1 < length array)%nat
             by (apply nth_error_Some; congruence));
      try (assert (i + 12 < length array)%nat
             by (apply nth_error_Some; congruence));
      try lia;
      cbn [option_map]; repeat split; intros; try discriminate; try lia.
Qed.

End TrendsFacts.

End ComparisonFacts.

(* ================================================================== *)
(** * More on the sync handler *)
(* ================================================================== *)

Module SyncMore.
Import Schema Sql Cron InsertFacts BatchFacts StringOrder TriggerFacts
  FetchFacts SyncFacts Samples MoreSamples.
Import Upstream (HDBRecord, FetchResult, Rejected, HttpError, Json, Source).

(** ** The rows a run adds *)

Lemma insert_all_added (rows table : list Transaction) :
  exists added,
    fst (insert_all rows table) = table ++ added /\
    snd (insert_all rows table) = Z.of_nat (length added) /\
    incl added rows /\ (length added <= length rows)%nat.
Proof.
  revert table. induction rows as [|row rows IH]; intros table.
  - exists []. cbn. rewrite app_nil_r. repeat split; auto. apply incl_refl.
  - cbn [insert_all].
    destruct (insert_or_ignore_spec row table) as [[E|E] _]; rewrite E;
      [destruct (IH table) as (added & H1 & H2 & H3 & H4)|
       destruct (IH (table ++ [row])) as (added & H1 & H2 & H3 & H4)];
      destruct (insert_all rows _) as [table'' n]; cbn [fst snd] in *.
    + exists added. repeat split; auto.
      * now apply incl_tl.
      * cbn [length]. lia.
    + exists (row :: added). rewrite H1, <- app_assoc. repeat split.
      * cbn [length]. lia.
      * apply incl_cons; [now left|now apply incl_tl].
      * cbn [length]. lia.
Qed.

Lemma fetched_relevant (source : Source) (f : string) (why : StopReason)
    (fetched : list HDBRecord) :
  fetchAll source f = Some (Stopped why fetched) ->
  forall r, In r fetched -> (f <=? Upstream.month r)%string = true.
Proof.
  intros Hfetch r Hr.
  destruct (fetchLoop_exit source f) as (k & e & _ & _ & _ & Hrun).
  specialize (Hrun 200%nat ltac:(lia)). fold (fetchAll source f) in Hrun.
  rewrite Hrun in Hfetch. destruct e as [w|]; [|discriminate].
  injection Hfetch as _ <-.
  unfold pages_upto, pages_from in Hr. apply in_flat_map in Hr.
  destruct Hr as (i & _ & Hr).
  destruct (page_at source i) as [|? ?|[] records]; try contradiction.
  cbn [page_records] in Hr. apply filter_In in Hr. now destruct Hr.
Qed.

Lemma sync_threw_exact (clock : Clock) (source : Source) (env : Enrichment)
    (st : Store) (error : string) :
  fetchAll source
    (watermark (select_max_month (db st)) (six_months_ago clock))
  = Some (Threw error) ->
  sync clock source env st
  = Some (mkResponse 500 (SyncFailed error),
          exec (UpdateSyncFailed error)
            (exec SelectMaxMonth
               (exec (UpdateSyncRunning (now_iso clock)) st))).
Proof.
  intros Hfetch. unfold sync. cbv zeta.
  change (select_max_month
            (db (exec SelectMaxMonth
                   (exec (UpdateSyncRunning (now_iso clock)) st))))
    with (select_max_month (db st)).
  now rewrite Hfetch.
Qed.

(** The three ways a call of the handler on a bound database ends. *)
Lemma GET_cases (request : Request) (d : Database) (clock : Clock)
    (source : Source) (env : Enrichment) :
  let f := watermark (select_max_month d) (six_months_ago clock) in
  (authorized request = false /\
   GET request (Some d) clock source env
   = Some (mkResponse 401 Unauthorized, Some d, []))
  \/
  (authorized request = true /\
   exists why fetched st',
     fetchAll source f = Some (Stopped why fetched) /\
     let ins :=
       insert_all (map transaction_of fetched) (hdb_transactions d) in
     GET request (Some d) clock source env
     = Some (mkResponse 200
               (SyncSucceeded (Z.of_nat (length fetched)) (snd ins)),
             Some (db st'), trace st') /\
     map natural_key (hdb_transactions (db st')) = map natural_key (fst ins) /\
     map month (hdb_transactions (db st')) = map month (fst ins) /\
     sync_metadata (db st')
     = update_sync (set_completed (snd ins))
         (update_sync (set_running (now_iso clock)) (sync_metadata d)))
  \/
  (authorized request = true /\
   exists error,
     fetchAll source f = Some (Threw error) /\
     GET request (Some d) clock source env
     = Some (mkResponse 500 (SyncFailed error),
             Some (run (UpdateSyncFailed error)
                     (run (UpdateSyncRunning (now_iso clock)) d)),
             [UpdateSyncRunning (now_iso clock); SelectMaxMonth;
              UpdateSyncFailed error])).
Proof.
  intros f. unfold GET, authorized.
  destruct (negb (isCron request) && negb (secret_matches request));
    [left; now split|right].
  cbn [negb].
  destruct (fetchLoop_exit source f) as (k & e & _ & _ & _ & Hrun).
  specialize (Hrun 200%nat ltac:(lia)). fold (fetchAll source f) in Hrun.
  destruct e as [why|error]; cbn [outcome_of] in Hrun.
  - left. split; [reflexivity|].
    destruct (@sync_stopped clock source env (mkStore d []) why _ Hrun)
      as (st' & Hsync & Hkeys & Hmonths & Hmeta).
    exists why, (pages_upto source f (S k)), st'. cbn [db] in *.
    rewrite Hsync. repeat split; auto.
  - right. split; [reflexivity|]. exists error. split; [exact Hrun|].
    now rewrite (@sync_threw_exact clock source env (mkStore d []) error Hrun).
Qed.

(** ** A failed request *)

(** When the first page that ends the loop is one whose request fails (no
    answer, or an error status other than 429), the run is a failure: the
    handler answers 500 with the error, the records fetched from the
    earlier pages are dropped, nothing is inserted, recomputed or scored,
    and the sync row is set to failed with the error as its message. *)
Theorem failed_request_aborts_sync
    (request : Request) (d : Database) (clock : Clock) (source : Source)
    (env : Enrichment) (k : nat) (error : string) :
  authorized request = true ->
  let filterDate := watermark (select_max_month d) (six_months_ago clock) in
  (forall i, (i < k)%nat ->
     page_exit filterDate i (page_at source i) = None) ->
  request_failed (page_at source k) = Some error ->
  exists d' : Database,
    GET request (Some d) clock source env
    = Some (mkResponse 500 (SyncFailed error), Some d',
            [UpdateSyncRunning (now_iso clock); SelectMaxMonth;
             UpdateSyncFailed error]) /\
    hdb_transactions d' = hdb_transactions d /\
    price_statistics d' = price_statistics d /\
    unit_scores d' = unit_scores d /\
    (forall r, In r (sync_metadata d') -> sync_type r = "hdb_data"%string ->
       status r = failed /\ error_message r = Some error).
Proof.
  intros Hauth filterDate Hnone Hfail.
  assert (Hk : (k < 50)%nat).
  { destruct (Nat.lt_ge_cases k 50) as [H|H]; [exact H|].
    exfalso. apply (page_exit_at_cap filterDate (page_at source 49)).
    apply Hnone. lia. }
  assert (Hexit : page_exit filterDate (0 + k) (page_at source (0 + k))
                  = Some (Failure error))
    by (cbn [plus]; now apply page_exit_failure).
  assert (Hfetch : fetchAll source filterDate = Some (Threw error)).
  { unfold fetchAll. change 0%Z with (limit * Z.of_nat 0)%Z.
    rewrite (@fetchLoop_first_exit source filterDate k 0 200 []
               (Failure error)); try lia; auto.
    intros i Hi. apply Hnone. lia. }
  destruct (GET_cases request d clock source env)
    as [[Hno _]|[(_ & why & fetched & st' & Hstop & _)|(_ & e & Hthrow & Hget)]].
  - congruence.
  - fold filterDate in Hstop. congruence.
  - fold filterDate in Hthrow. rewrite Hfetch in Hthrow.
    injection Hthrow as <-.
    eexists. split; [exact Hget|]. repeat split.
    + cbn [run sync_metadata] in H. unfold update_sync at 1 in H.
      apply in_map_iff in H. destruct H as (r0 & <- & _).
      destruct (String.eqb (sync_type r0) "hdb_data") eqn:E; [reflexivity|].
      apply String.eqb_neq in E. contradiction.
    + cbn [run sync_metadata] in H. unfold update_sync at 1 in H.
      apply in_map_iff in H. destruct H as (r0 & <- & _).
      destruct (String.eqb (sync_type r0) "hdb_data") eqn:E; [reflexivity|].
      apply String.eqb_neq in E. contradiction.
Qed.

Lemma failed_request_aborts_sync_witness :
  exists d' : Database,
    GET cron_request (Some empty_database) sample_clock failing_source
      no_enrichment
    = Some (mkResponse 500
              (SyncFailed
                 "Error: HDB API returned 503: Service Unavailable"),
            Some d',
            [UpdateSyncRunning "2026-11-02T02:00:00.000Z"; SelectMaxMonth;
             UpdateSyncFailed
               "Error: HDB API returned 503: Service Unavailable"]) /\
    hdb_transactions d' = [].
Proof.
  assert (Hnone : forall i, (i < 1)%nat ->
            page_exit "2026-05" i (page_at failing_source i) = None).
  { intros i Hi. destruct i as [|i]; [vm_compute; reflexivity|lia]. }
  destruct (@failed_request_aborts_sync cron_request empty_database
              sample_clock failing_source no_enrichment 1
              "Error: HDB API returned 503: Service Unavailable"
              eq_refl Hnone eq_refl)
    as (d' & Hget & Htable & _).
  exists d'. split; [exact Hget|exact Htable].
Defined.


(** ** What a run adds, and where the next one starts *)

(** A run that succeeds only appends rows to the transactions: as many as
    the answer reports inserted, no more than were fetched, and each of a
    month at or after the watermark of the run. *)
Theorem sync_appends_recent_rows
    (request : Request) (d d' : Database) (clock : Clock) (source : Source)
    (env : Enrichment) (fetched inserted : Z) (statements : list Stmt) :
  GET request (Some d) clock source env
  = Some (mkResponse 200 (SyncSucceeded fetched inserted), Some d',
          statements) ->
  exists added : list string,
    map month (hdb_transactions d') = map month (hdb_transactions d) ++ added /\
    Z.of_nat (length added) = inserted /\
    (0 <= inserted <= fetched)%Z /\
    forall m, In m added ->
      (watermark (select_max_month d) (six_months_ago clock) <=? m)%string
      = true.
Proof.
  intros Hget.
  destruct (GET_cases request d clock source env)
    as [[_ H]|[(_ & why & R & st' & Hstop & H & _ & Hmonths & _)|
               (_ & e & _ & H)]];
    rewrite H in Hget; try discriminate.
  injection Hget as <- <- <- _.
  destruct (insert_all_added (map transaction_of R) (hdb_transactions d))
    as (rows & Hfst & Hsnd & Hincl & Hlen).
  exists (map month rows). rewrite Hmonths, Hfst, map_app, length_map, Hsnd.
  rewrite length_map in Hlen. repeat split; try lia.
  intros m Hm. apply in_map_iff in Hm. destruct Hm as (row & <- & Hrow).
  apply Hincl, in_map_iff in Hrow. destruct Hrow as (r & <- & Hr).
  exact (fetched_relevant _ _ Hstop r Hr).
Qed.

Lemma sync_appends_recent_rows_witness :
  exists added : list string,
    map month (hdb_transactions after_first_run)
    = map month (hdb_transactions empty_database) ++ added /\
    Z.of_nat (length added) = 2%Z /\
    (0 <= 2 <= 2)%Z /\
    forall m, In m added ->
      (watermark (select_max_month empty_database)
         (six_months_ago sample_clock) <=? m)%string = true.
Proof.
  apply (@sync_appends_recent_rows cron_request empty_database
           after_first_run sample_clock small_source no_enrichment 2 2
           first_run_trace).
  vm_compute. reflexivity.
Defined.

(** Whatever the outcome of a run, the next run, at the same or a later
    time, starts from a watermark that is not earlier. *)
Theorem watermark_never_decreases
    (request : Request) (d d' : Database) (clock1 clock2 : Clock)
    (source : Source) (env : Enrichment) (response : Response)
    (statements : list Stmt) :
  (six_months_ago clock1 <=? six_months_ago clock2)%string = true ->
  GET request (Some d) clock1 source env
  = Some (response, Some d', statements) ->
  (watermark (select_max_month d) (six_months_ago clock1)
   <=? watermark (select_max_month d') (six_months_ago clock2))%string = true.
Proof.
  intros Hclock Hget.
  apply watermark_mono; [exact Hclock|]. apply select_max_month_mono.
  destruct (GET_cases request d clock1 source env)
    as [[_ H]|[(_ & why & R & st' & _ & H & _ & Hmonths & _)|
               (_ & e & _ & H)]];
    rewrite H in Hget; injection Hget as _ <- _.
  - apply incl_refl.
  - rewrite Hmonths.
    destruct (insert_all_added (map transaction_of R) (hdb_transactions d))
      as (rows & -> & _).
    rewrite map_app. apply incl_appl, incl_refl.
  - apply incl_refl.
Qed.

Lemma watermark_never_decreases_witness :
  (watermark (select_max_month empty_database) (six_months_ago sample_clock)
   <=? watermark (select_max_month after_first_run)
         (six_months_ago sample_clock))%string = true.
Proof.
  apply (@watermark_never_decreases cron_request empty_database
           after_first_run sample_clock sample_clock small_source
           no_enrichment (mkResponse 200 (SyncSucceeded 2 2))
           first_run_trace).
  - reflexivity.
  - vm_compute. reflexivity.
Defined.

(** ** The state of the sync row *)

Lemma find_update_sync (f : SyncMetadata -> SyncMetadata)
    (table : list SyncMetadata) :
  (forall r, sync_type (f r) = sync_type r) ->
  find (fun r => String.eqb (sync_type r) "hdb_data") (update_sync f table)
  = option_map f
      (find (fun r => String.eqb (sync_type r) "hdb_data") table).
Proof.
  intros Hf. unfold update_sync.
  induction table as [|r table IH]; [reflexivity|].
  cbn [map find].
  destruct (String.eqb (sync_type r) "hdb_data") eqn:E.
  - now rewrite Hf, E.
  - now rewrite E, IH.
Qed.

Lemma update_sync_other (f g : SyncMetadata -> SyncMetadata)
    (table : list SyncMetadata) (r : SyncMetadata) :
  (forall x, sync_type (f x) = sync_type x) ->
  (forall x, sync_type (g x) = sync_type x) ->
  In r (update_sync f (update_sync g table)) ->
  sync_type r <> "hdb_data"%string -> In r table.
Proof.
  intros Hf Hg Hin Hne. unfold update_sync in Hin.
  rewrite map_map in Hin. apply in_map_iff in Hin.
  destruct Hin as (r0 & <- & Hin).
  destruct (String.eqb (sync_type r0) "hdb_data") eqn:E.
  - exfalso. rewrite Hg, E, Hf, Hg in Hne.
    apply String.eqb_eq in E. contradiction.
  - now rewrite E.
Qed.

(** The status endpoint read after an authorized run: with no [hdb_data]
    row before the run there is none after it, and the endpoint answers
    404; otherwise it reports the time the run started and, after a run
    that succeeded, the state completed with the number of records
    inserted and no error; after a run that failed, the state failed with
    the error and the count of the run before.  It never reports a run
    that is over as running. *)
Theorem status_endpoint_after_sync
    (request : Request) (d d' : Database) (clock : Clock) (source : Source)
    (env : Enrichment) (response : Response) (statements : list Stmt) :
  authorized request = true ->
  GET request (Some d) clock source env
  = Some (response, Some d', statements) ->
  match SyncStatusEndpoint.select_status d with
  | None =>
      SyncStatusEndpoint.GET (Some d')
      = SyncStatusEndpoint.mkResponse 404 SyncStatusEndpoint.NotFound
  | Some before =>
      match body response with
      | SyncSucceeded _ insertedCount =>
          SyncStatusEndpoint.GET (Some d')
          = SyncStatusEndpoint.mkResponse 200
              (SyncStatusEndpoint.Found (Some (now_iso clock)) completed
                 insertedCount None)
      | SyncFailed error =>
          SyncStatusEndpoint.GET (Some d')
          = SyncStatusEndpoint.mkResponse 200
              (SyncStatusEndpoint.Found (Some (now_iso clock)) failed
                 (records_processed before) (Some error))
      | _ => False
      end
  end.
Proof.
  intros Hauth Hget.
  destruct (GET_cases request d clock source env)
    as [[Hno _]|[(_ & why & R & st' & _ & H & _ & _ & Hmeta)|
                 (_ & e & _ & H)]];
    [congruence|..]; rewrite H in Hget; injection Hget as <- <- _;
    unfold SyncStatusEndpoint.GET, SyncStatusEndpoint.select_status;
    cbn [body].
  - rewrite Hmeta, !find_update_sync by reflexivity.
    now destruct (find _ (sync_metadata d)).
  - cbn [run sync_metadata]. rewrite !find_update_sync by reflexivity.
    now destruct (find _ (sync_metadata d)).
Qed.

Lemma status_endpoint_after_sync_witness :
  SyncStatusEndpoint.GET (Some after_first_run)
  = SyncStatusEndpoint.mkResponse 200
      (SyncStatusEndpoint.Found (Some "2026-11-02T02:00:00.000Z"%string)
         completed 2 None).
Proof.
  apply (@status_endpoint_after_sync cron_request empty_database
           after_first_run sample_clock small_source no_enrichment
           (mkResponse 200 (SyncSucceeded 2 2)) first_run_trace).
  - reflexivity.
  - vm_compute. reflexivity.
Defined.

(** An authorized run on a bound database leaves the rows of the other
    sync types as they were and the [hdb_data] row completed or failed, in
    agreement with the answer: completed with the inserted count under
    200, failed with the error under 500. *)
Theorem sync_leaves_terminal_state
    (request : Request) (d : Database) (clock : Clock) (source : Source)
    (env : Enrichment) :
  authorized request = true ->
  exists response d' statements,
    GET request (Some d) clock source env
    = Some (response, Some d', statements) /\
    map sync_type (sync_metadata d') = map sync_type (sync_metadata d) /\
    (forall r, In r (sync_metadata d') ->
       sync_type r <> "hdb_data"%string -> In r (sync_metadata d)) /\
    (forall r, In r (sync_metadata d') -> sync_type r = "hdb_data"%string ->
       (http_status response = 200%Z /\ status r = completed /\
        error_message r = None /\
        exists fetched,
          body response = SyncSucceeded fetched (records_processed r))
       \/
       (http_status response = 500%Z /\ status r = failed /\
        exists error,
          body response = SyncFailed error /\
          error_message r = Some error)).
Proof.
  intros Hauth.
  destruct (GET_cases request d clock source env)
    as [[Hno _]|[(_ & why & R & st' & _ & H & _ & _ & Hmeta)|
                 (_ & e & _ & H)]];
    [congruence|..]; eexists _, _, _; (split; [exact H|]).
  - rewrite Hmeta. split; [rewrite !update_sync_types; auto|]. split.
    + intros r Hin Hne. eapply update_sync_other; eauto; reflexivity.
    + intros r Hin Htype. left.
      destruct (completed_rows _ _ _ Hin Htype) as (H1 & H2 & H3).
      repeat split; auto. eexists. cbn [body]. now rewrite H2.
  - cbn [run sync_metadata]. split; [rewrite !update_sync_types; auto|].
    split.
    + intros r Hin Hne. eapply update_sync_other; eauto; reflexivity.
    + intros r Hin Htype. right. unfold update_sync at 1 in Hin.
      apply in_map_iff in Hin. destruct Hin as (r0 & <- & _).
      destruct (String.eqb (sync_type r0) "hdb_data") eqn:E.
      * repeat split. now exists e.
      * apply String.eqb_neq in E. contradiction.
Qed.

Lemma sync_leaves_terminal_state_witness :
  exists response d' statements,
    GET cron_request (Some empty_database) sample_clock small_source
      no_enrichment
    = Some (response, Some d', statements) /\
    map sync_type (sync_metadata d')
    = ["hdb_data"; "geocode"; "scores"]%string.
Proof.
  destruct (@sync_leaves_terminal_state cron_request empty_database
              sample_clock small_source no_enrichment eq_refl)
    as (response & d' & statements & Hget & Htypes & _).
  exists response, d', statements. split; [exact Hget|exact Htypes].
Defined.

(** ** The batches of the insert phase *)

(** Cutting the fetched records into batches of 50 changes nothing: the
    table, the statements executed and the count of inserted rows are those
    of one INSERT OR IGNORE per record, in the order of the records; and
    the count is the number of rows the table has grown by. *)
Theorem insert_in_batches_is_sequential (allRecords : list HDBRecord)
    (st : Store) :
  let rows := map transaction_of allRecords in
  let '(st', insertedCount) := insertRecords allRecords st in
  hdb_transactions (db st')
  = fst (insert_all rows (hdb_transactions (db st))) /\
  trace st' = trace st ++ map InsertOrIgnoreTransaction rows /\
  insertedCount = snd (insert_all rows (hdb_transactions (db st))) /\
  Z.of_nat (length (hdb_transactions (db st')))
  = (Z.of_nat (length (hdb_transactions (db st))) + insertedCount)%Z.
Proof.
  intros rows. rewrite insertRecords_spec. fold rows.
  cbn [inserted db trace hdb_transactions].
  repeat split.
  destruct (insert_all_added rows (hdb_transactions (db st)))
    as (added & -> & -> & _).
  rewrite length_app. lia.
Qed.
End SyncMore.

(* ================================================================== *)
(** * More on the statistics recomputation *)
(* ================================================================== *)

Module StatisticsMore.
Import Schema Sql JSFacts.

Lemma group_eqb_eq (a b : GroupKey) : group_eqb a b = true <-> a = b.
Proof.
  destruct a as [[t1 f1] m1], b as [[t2 f2] m2]. cbn [group_eqb].
  rewrite !andb_true_iff, !String.eqb_eq. split.
  - now intros [[-> ->] ->].
  - intros [= -> -> ->]. now repeat split.
Qed.

Lemma stat_group_aggregate (now : string) (g : GroupKey)
    (rows : list Transaction) :
  stat_group (aggregate_group now g rows) = g.
Proof. now destruct g as [[t f] m]. Qed.

Lemma seen_In (g : GroupKey) (seen : list GroupKey) :
  existsb (group_eqb g) seen = true <-> In g seen.
Proof.
  rewrite existsb_exists. split.
  - intros (x & Hx & E). apply group_eqb_eq in E. now subst.
  - intros H. exists g. split; [exact H|]. now apply group_eqb_eq.
Qed.

Lemma distinct_groups_In (g : GroupKey) (rows : list Transaction)
    (seen : list GroupKey) :
  In g (distinct_groups seen rows) <->
  (exists t, In t rows /\ group_of t = g) /\ ~ In g seen.
Proof.
  revert seen. induction rows as [|t rows IH]; intros seen.
  - cbn. split; [contradiction|]. now intros [(t & [] & _) _].
  - cbn [distinct_groups].
    destruct (existsb (group_eqb (group_of t)) seen) eqn:E.
    + apply seen_In in E. rewrite IH. split.
      * intros [(u & Hu & Hg) Hs]. split; [|exact Hs].
        exists u. split; [now right|exact Hg].
      * intros [(u & [<-|Hu] & Hg) Hs]; [congruence|].
        split; [|exact Hs]. now exists u.
    + assert (Hns : ~ In (group_of t) seen).
      { intros H. apply seen_In in H. congruence. }
      cbn [In]. rewrite IH. split.
      * intros [<-|[(u & Hu & Hg) Hs]].
        -- split; [|exact Hns]. exists t. split; [now left|reflexivity].
        -- split; [exists u; split; [now right|exact Hg]|].
           intros H. apply Hs. now right.
      * intros [(u & [<-|Hu] & Hg) Hs]; [now left|].
        destruct (group_eqb (group_of t) g) eqn:Eg.
        -- left. now apply group_eqb_eq.
        -- right. split; [now exists u|].
           intros [H|H]; [|contradiction].
           apply group_eqb_eq in H. congruence.
Qed.

Lemma distinct_groups_NoDup (rows : list Transaction) (seen : list GroupKey) :
  NoDup (distinct_groups seen rows).
Proof.
  revert seen. induction rows as [|t rows IH]; intros seen; [constructor|].
  cbn [distinct_groups].
  destruct (existsb (group_eqb (group_of t)) seen); [apply IH|].
  constructor; [|apply IH].
  rewrite distinct_groups_In. intros [_ H]. apply H. now left.
Qed.

Lemma insert_or_replace_stat_In (row s : PriceStatistics)
    (table : list PriceStatistics) :
  In s (insert_or_replace_stat row table) <->
  (In s table /\ stat_group s <> stat_group row) \/ s = row.
Proof.
  unfold insert_or_replace_stat. rewrite in_app_iff, filter_In. cbn [In].
  rewrite negb_true_iff. split.
  - intros [[Hin E]|[<-|[]]]; [left|now right].
    split; [exact Hin|]. intros H.
    assert (group_eqb (stat_group row) (stat_group s) = true)
      by now apply group_eqb_eq.
    congruence.
  - intros [[Hin Hne]| ->]; [left|right; now left].
    split; [exact Hin|].
    destruct (group_eqb (stat_group row) (stat_group s)) eqn:E;
      [|reflexivity].
    apply group_eqb_eq in E. congruence.
Qed.

(** Dropping rows keeps the groups of a table distinct. *)
Lemma filter_groups_NoDup (keep : PriceStatistics -> bool)
    (table : list PriceStatistics) :
  NoDup (map stat_group table) ->
  NoDup (map stat_group (filter keep table)).
Proof.
  induction table as [|s table IH]; [auto|]. cbn [map filter]. intros H.
  inversion H as [|? ? Hnot Hrest]; subst.
  destruct (keep s); [|now apply IH].
  cbn [map]. constructor; [|now apply IH].
  intros Hin. apply Hnot. apply in_map_iff in Hin.
  destruct Hin as (x & <- & Hx). apply filter_In in Hx.
  apply in_map. now destruct Hx.
Qed.

Lemma insert_or_replace_stat_NoDup (row : PriceStatistics)
    (table : list PriceStatistics) :
  NoDup (map stat_group table) ->
  NoDup (map stat_group (insert_or_replace_stat row table)).
Proof.
  intros H. unfold insert_or_replace_stat. rewrite map_app.
  apply NoDup_app.
  - now apply filter_groups_NoDup.
  - repeat constructor. intros [].
  - intros g Hg [<-|[]]. apply in_map_iff in Hg.
    destruct Hg as (s & Hs & Hin). apply filter_In in Hin.
    destruct Hin as [_ E]. apply negb_true_iff in E.
    assert (group_eqb (stat_group row) (stat_group s) = true)
      by now apply group_eqb_eq.
    congruence.
Qed.

Section Fold.

Variable row_of : GroupKey -> PriceStatistics.
Hypothesis row_group : forall g, stat_group (row_of g) = g.

Lemma replace_all_In (groups : list GroupKey) :
  NoDup groups ->
  forall table s,
    In s (fold_left (fun table g => insert_or_replace_stat (row_of g) table)
            groups table) <->
    (In s table /\ ~ In (stat_group s) groups) \/
    (exists g, In g groups /\ s = row_of g).
Proof.
  induction 1 as [|g groups Hnot Hnd IH]; intros table s; cbn [fold_left].
  - split; [intros H; left; now split|].
    now intros [[H _]|(g & [] & _)].
  - rewrite IH, insert_or_replace_stat_In, row_group. cbn [In]. split.
    + intros [[[[Hin Hne]| ->] Hs]|(g' & Hg' & ->)].
      * left. split; [exact Hin|]. intros [E|E]; [congruence|contradiction].
      * right. exists g. split; [now left|reflexivity].
      * right. exists g'. split; [now right|reflexivity].
    + intros [[Hin Hs]|(g' & [<-|Hg'] & ->)].
      * left. split; [|tauto]. left. split; [exact Hin|].
        intros E. apply Hs. now left.
      * left. split; [now right|]. now rewrite row_group.
      * right. now exists g'.
Qed.

Lemma replace_all_NoDup (groups : list GroupKey)
    (table : list PriceStatistics) :
  NoDup (map stat_group table) ->
  NoDup (map stat_group
           (fold_left (fun table g => insert_or_replace_stat (row_of g) table)
              groups table)).
Proof.
  revert table. induction groups as [|g groups IH]; intros table H; [exact H|].
  cbn [fold_left]. now apply IH, insert_or_replace_stat_NoDup.
Qed.

End Fold.

(** The statistics after the recomputation.  The table keeps one row per
    (town, flat type, month) if it had so before; every group with a sale
    in the window has the row aggregated from the sales of the window;
    every row is either such a row or a row that was there before; and a
    row of a group without a sale in the window is kept as it was. *)
Theorem recomputed_statistics (cutoff now : string) (d : Database) :
  let window :=
    filter (fun t => (cutoff <=? month t)%string) (hdb_transactions d) in
  let fresh g := aggregate_group now g (group_rows g window) in
  let result := recompute_statistics cutoff now d in
  (NoDup (map stat_group (price_statistics d)) ->
   NoDup (map stat_group result)) /\
  (forall t, In t window -> In (fresh (group_of t)) result) /\
  (forall s, In s result ->
     In s (price_statistics d) \/
     exists t, In t window /\ s = fresh (group_of t)) /\
  (forall s, In s (price_statistics d) ->
     (forall t, In t window -> group_of t <> stat_group s) ->
     In s result).
Proof.
  intros window fresh result.
  assert (Hgroup : forall g, stat_group (fresh g) = g)
    by (intros g; apply stat_group_aggregate).
  pose proof (@replace_all_In fresh Hgroup (distinct_groups [] window)
                (distinct_groups_NoDup window [])) as Hin.
  assert (Hdistinct : forall g,
    In g (distinct_groups [] window) <->
    exists t, In t window /\ group_of t = g).
  { intros g. rewrite distinct_groups_In. cbn [In]. tauto. }
  subst result. unfold recompute_statistics. cbv zeta.
  fold window. change (fun table g =>
    insert_or_replace_stat (aggregate_group now g (group_rows g window)) table)
    with (fun table g => insert_or_replace_stat (fresh g) table).
  split; [|split; [|split]].
  - apply replace_all_NoDup.
  - intros t Ht. apply Hin. right. exists (group_of t).
    split; [|reflexivity]. apply Hdistinct. now exists t.
  - intros s Hs. apply Hin in Hs.
    destruct Hs as [[Hs _]|(g & Hg & ->)]; [now left|right].
    apply Hdistinct in Hg. destruct Hg as (t & Ht & <-). now exists t.
  - intros s Hs Hnone. apply Hin. left. split; [exact Hs|].
    intros Hg. apply Hdistinct in Hg. destruct Hg as (t & Ht & E).
    now apply (Hnone t).
Qed.

(** ** The aggregates of a row *)






End StatisticsMore.

(* ================================================================== *)
(** * The enrichment of blocks with scores *)
(* ================================================================== *)

Module EnrichFacts.
Import JS Schema Sql Cron Aux SyncFacts Samples MoreSamples.

(** ** The scores written *)




(** ** The enrichment trigger *)

Lemma enrich_one_statistics (env : Enrichment) (clock : Clock)
    (token : string) (medians : list PriceStatistics) (txn : Transaction)
    (st : Store) :
  price_statistics (db (enrich_one env clock token medians txn st))
  = price_statistics (db st).
Proof.
  unfold enrich_one. now destruct (getCoordinates env _ _).
Qed.

Lemma enrich_block_spec (env : Enrichment) (clock : Clock) (token : string)
    (medians : list PriceStatistics) (txn : Transaction) (st : Store)
    (results : list Enrich.Detail) :
  exists results',
    Enrich.enrich_block env clock token medians txn (st, results)
    = (enrich_one env clock token medians txn st, results') /\
    ((results' = results /\
      trace (enrich_one env clock token medians txn st) = trace st) \/
     (exists detail a b,
        results' = results ++ [detail] /\
        trace (enrich_one env clock token medians txn st)
        = trace st ++ [a; b])).
Proof.
  unfold Enrich.enrich_block, enrich_one.
  destruct (getCoordinates env _ _) as [coords|].
  - eexists. split; [reflexivity|]. right. eexists _, _, _.
    split; [reflexivity|]. cbn [exec trace]. now rewrite <- app_assoc.
  - eexists. split; [reflexivity|]. now left.
Qed.

Lemma enrich_fold (env : Enrichment) (clock : Clock) (token : string)
    (medians : list PriceStatistics) (backlog : list Transaction)
    (st : Store) (results : list Enrich.Detail) :
  exists st' results',
    fold_left
      (fun acc txn => Enrich.enrich_block env clock token medians txn acc)
      backlog (st, results)
    = (st', results') /\
    same_ledger st' st /\
    price_statistics (db st') = price_statistics (db st) /\
    (length results <= length results' <= length results + length backlog)%nat /\
    (length (trace st') + 2 * length results
     = length (trace st) + 2 * length results')%nat.
Proof.
  revert st results. induction backlog as [|txn backlog IH];
    intros st results.
  - exists st, results. cbn [fold_left length]. repeat split; lia.
  - cbn [fold_left].
    destruct (enrich_block_spec env clock token medians txn st results)
      as (r1 & -> & Hstep).
    destruct (IH (enrich_one env clock token medians txn st) r1)
      as (st' & results' & -> & Hledger & Hstats & Hlen & Htrace).
    exists st', results'. split; [reflexivity|].
    split; [eapply same_ledger_trans; [exact Hledger|apply enrich_one_frame]|].
    split; [now rewrite Hstats, enrich_one_statistics|].
    cbn [length].
    destruct Hstep as [[-> Ht]|(detail & a & b & -> & Ht)];
      rewrite Ht in Htrace; rewrite ?length_app in *; cbn [length] in *; lia.
Qed.

(** One call of the enrichment trigger on a bound database.  Without the
    header or the secret it answers 401 and does nothing.  When it answers
    with a count of processed blocks, the count is the number of details,
    at most five; two statements were executed for each block after the
    two reads; and the keys of the transactions, the statistics and the
    sync rows are as before. *)
Theorem enrich_chunk_bounded (request : Request) (d : Database)
    (clock : Clock) (env : Enrichment) :
  exists response DB' statements,
    Enrich.GET request (Some d) clock env = (response, DB', statements) /\
    (authorized request = false ->
     response = Enrich.mkResponse 401 Enrich.Unauthorized /\
     DB' = Some d /\ statements = []) /\
    forall processed details,
      Enrich.body response = Enrich.Enriched processed details ->
      authorized request = true /\
      processed = Z.of_nat (length details) /\
      (0 <= processed <= 5)%Z /\
      length statements = (2 + 2 * length details)%nat /\
      exists d',
        DB' = Some d' /\
        map natural_key (hdb_transactions d')
        = map natural_key (hdb_transactions d) /\
        price_statistics d' = price_statistics d /\
        sync_metadata d' = sync_metadata d.
Proof.
  unfold Enrich.GET, authorized.
  destruct (negb (isCron request) && negb (secret_matches request)).
  { eexists _, _, _. split; [reflexivity|]. split; [now intros _|].
    intros processed details [=]. }
  cbn [negb].
  destruct (truthy (ONEMAP_EMAIL env)) as [email|].
  2:{ eexists _, _, _. split; [reflexivity|]. split; [discriminate|].
      intros processed details [=]. }
  destruct (truthy (ONEMAP_PASSWORD env)) as [password|].
  2:{ eexists _, _, _. split; [reflexivity|]. split; [discriminate|].
      intros processed details [=]. }
  destruct (truthy (getOneMapToken env email password)) as [token|].
  2:{ eexists _, _, _. split; [reflexivity|]. split; [discriminate|].
      intros processed details [=]. }
  cbv zeta.
  set (st0 := exec (SelectBacklog _) (exec SelectLatestMedians (mkStore d []))).
  set (backlog := Enrich.select_backlog_limit 5 _ _).
  destruct (enrich_fold env clock token
              (select_latest_medians
                 (db (exec SelectLatestMedians (mkStore d []))))
              backlog st0 [])
    as (st' & results & Hfold & (Hkeys & _ & Hsync) & Hstats & Hlen & Htrace).
  rewrite Hfold.
  eexists _, _, _. split; [reflexivity|]. split; [discriminate|].
  intros processed details [= <- <-].
  assert (Hfive : (length backlog <= 5)%nat)
    by (subst backlog; unfold Enrich.select_backlog_limit;
        apply firstn_le_length).
  cbn [length] in *. change (length (trace st0)) with 2%nat in Htrace.
  split; [reflexivity|]. split; [reflexivity|]. split; [lia|].
  split; [lia|].
  exists (db st'). repeat split; assumption.
Qed.

End EnrichFacts.
